(** * A URL shortener: the Express/SQLite server of [server.js]

    The development embeds the request handlers of [server.js] as pure
    functions over an explicit database state.  The two SQLite tables are
    a finite map (table [urls], whose primary key is the code) and a list
    in rowid order (table [visits]).  Everything a handler reads from its
    surroundings (the clock, the [nanoid] generator, the log identifier
    set by the logging middleware, failures of the storage layer) comes
    from an explicit environment record.

    Modelling conventions.
    - JavaScript strings are [string]s of 8-bit characters.  [trim] and
      [toLowerCase] are modelled on ASCII text, where they strip the six
      ASCII white-space characters and lowercase [A]-[Z]; the platform
      functions also strip Unicode spaces and lowercase other letters,
      which the definitions here do not.  Statements that depend on the
      body of [normalizeCode] are therefore made for ASCII input, or for
      codes that pass the shortcode pattern.
    - The fields [url] and [shortcode] of a request body are strings or
      missing; bodies that hold other JSON values there are not modelled.
    - Instants are integers: milliseconds since the epoch for JavaScript
      [Date]s, whole seconds for SQLite's [datetime('now')].  The ISO text
      written by [toISOString] and read back by [new Date(text)] denotes
      the same instant, so [expiry_at] is kept as that instant.
    - JavaScript numbers are exact rationals plus NaN and the infinities;
      rounding of doubles is not modelled.  The arithmetic of
      [computeExpiry] is the one of the code for a whole number of
      minutes; statements about the value of an expiry are made for whole
      minutes.
    - [res.redirect(url)] is kept as the URL the handler passes; the
      [Location] header Express then sends is its percent-encoding,
      [encodeUrl(url)], a function of the platform.
    - The WHATWG [URL] constructor belongs to the platform and is a
      parameter of the development. *)

From Stdlib Require Import ZArith QArith Qround Qabs Ascii String.
From stdpp Require Import gmap strings list fin_maps sorting.

Local Open Scope Z_scope.

(** ** JavaScript strings *)

Module JsString.

(** [String.prototype.trim] strips white space at both ends; here, the
    ASCII white space (tab, line feed, vertical tab, form feed, carriage
    return, space). *)
Fixpoint trimStart (s : string) : string :=
  match s with
  | String c s' => if Ascii.is_space c then trimStart s' else s
  | EmptyString => EmptyString
  end.

Fixpoint trimEnd (s : string) : string :=
  match s with
  | String c s' =>
      match trimEnd s' with
      | EmptyString => if Ascii.is_space c then EmptyString else String c EmptyString
      | t => String c t
      end
  | EmptyString => EmptyString
  end.

Definition trim (s : string) : string := trimEnd (trimStart s).

Definition is_upper (c : ascii) : bool :=
  (65 <=? nat_of_ascii c)%nat && (nat_of_ascii c <=? 90)%nat.

Definition lower_char (c : ascii) : ascii :=
  if is_upper c then ascii_of_nat (nat_of_ascii c + 32) else c.

Fixpoint toLowerCase (s : string) : string :=
  match s with
  | String c s' => String (lower_char c) (toLowerCase s')
  | EmptyString => EmptyString
  end.

(** [hay.includes(needle)] *)
Fixpoint includes (needle hay : string) : bool :=
  String.prefix needle hay ||
  match hay with
  | String _ hay' => includes needle hay'
  | EmptyString => false
  end.

(** Truthiness of a string: only the empty string is falsy. *)
Definition truthy (s : string) : bool :=
  match s with EmptyString => false | _ => true end.

Fixpoint all_chars (p : ascii → bool) (s : string) : bool :=
  match s with
  | String c s' => p c && all_chars p s'
  | EmptyString => true
  end.

End JsString.

(** ** Regular expressions

    A backtracking matcher for the fragment of JavaScript regular
    expressions that the server uses: the assertions [^] and [$] (no
    [m] flag), character classes, concatenation and bounded repetition. *)

Module RegExp.

Inductive class_item : Type :=
| Chr (c : ascii)
| Rng (lo hi : ascii).

Inductive t : Type :=
| Bol
| Eol
| Class (cs : list class_item)
| Cat (r1 r2 : t)
| Quant (r : t) (lo hi : nat).

Definition item_has (c : ascii) (it : class_item) : bool :=
  match it with
  | Chr d => Ascii.eqb c d
  | Rng lo hi =>
      (nat_of_ascii lo <=? nat_of_ascii c)%nat && (nat_of_ascii c <=? nat_of_ascii hi)%nat
  end.

Definition class_has (cs : list class_item) (c : ascii) : bool :=
  existsb (item_has c) cs.

(** A matcher takes the index reached, the rest of the input and a
    continuation. *)
Definition matcher : Type := nat → string → (nat → string → bool) → bool.

(** [r{lo,hi}]: at most [hi] iterations, and the continuation may run
    only once [lo] of them are done. *)
Fixpoint repeat_m (step : matcher) (hi lo : nat) : matcher :=
  fun i s k =>
    match hi with
    | O => Nat.eqb lo 0 && k i s
    | S hi' =>
        step i s (fun i' s' => repeat_m step hi' (Nat.pred lo) i' s' k)
        || (Nat.eqb lo 0 && k i s)
    end.

Fixpoint m (r : t) : matcher :=
  fun i s k =>
    match r with
    | Bol => Nat.eqb i 0 && k i s
    | Eol => match s with EmptyString => k i s | _ => false end
    | Class cs =>
        match s with
        | String c s' => class_has cs c && k (S i) s'
        | EmptyString => false
        end
    | Cat r1 r2 => m r1 i s (fun i' s' => m r2 i' s' k)
    | Quant r' lo hi => repeat_m (m r') hi lo i s k
    end.

(** [exec] tries every start position from the left. *)
Fixpoint search (r : t) (i : nat) (s : string) : bool :=
  m r i s (fun _ _ => true) ||
  match s with
  | String _ s' => search r (S i) s'
  | EmptyString => false
  end.

(** [re.test(s)] *)
Definition test (r : t) (s : string) : bool := search r 0 s.

End RegExp.

(** ** JavaScript numbers and values *)

Module JsNumber.

Inductive t : Type :=
| Fin (q : Q)
| PosInf
| NegInf
| NaN.

Definition of_Z (z : Z) : t := Fin (inject_Z z).

Definition sign (x : t) : Z :=
  match x with
  | Fin q => Z.sgn (Qnum q)
  | PosInf => 1
  | NegInf => -1
  | NaN => 0
  end.

Definition of_sign (z : Z) : t :=
  match z with
  | Z0 => NaN
  | Zpos _ => PosInf
  | Zneg _ => NegInf
  end.

Definition mul (x y : t) : t :=
  match x, y with
  | NaN, _ | _, NaN => NaN
  | Fin a, Fin b => Fin (a * b)
  | _, _ => of_sign (sign x * sign y)
  end.

Definition add (x y : t) : t :=
  match x, y with
  | NaN, _ | _, NaN => NaN
  | Fin a, Fin b => Fin (a + b)
  | PosInf, NegInf | NegInf, PosInf => NaN
  | PosInf, _ | _, PosInf => PosInf
  | NegInf, _ | _, NegInf => NegInf
  end.

(** [x > y] *)
Definition gt (x y : t) : bool :=
  match x, y with
  | NaN, _ | _, NaN => false
  | Fin a, Fin b => negb (Qle_bool a b)
  | PosInf, PosInf => false
  | PosInf, _ => true
  | NegInf, _ => false
  | Fin _, NegInf => true
  | Fin _, PosInf => false
  end.

(** [Number.isInteger] on a number: finite and without fractional part. *)
Definition isInteger (x : t) : bool :=
  match x with
  | Fin q => Qeq_bool q (inject_Z (Qfloor q))
  | _ => false
  end.

(** Truncation towards zero ([ToIntegerOrInfinity] on a finite number). *)
Definition trunc (q : Q) : Z :=
  if Qle_bool 0 q then Qfloor q else Qceiling q.

End JsNumber.

Module Js.

(** A value as [JSON.parse] can produce it in a request body, or
    [undefined] for a missing property. *)
Inductive value : Type :=
| Undefined
| Null
| Bool (b : bool)
| Num (x : JsNumber.t)
| Str (s : string)
| Object.

(** [Number.isInteger(v)]: false for everything that is not a number. *)
Definition Number_isInteger (v : value) : bool :=
  match v with
  | Num x => JsNumber.isInteger x
  | _ => false
  end.

Inductive exn : Type :=
| TypeError (message : string)
| RangeError (message : string)
| SqliteError (message : string).

Definition message (e : exn) : string :=
  match e with
  | TypeError msg | RangeError msg | SqliteError msg => msg
  end.

(** The outcome of evaluating an expression: a value or a thrown
    exception. *)
Inductive result (A : Type) : Type :=
| Ok (a : A)
| Throw (e : exn).
Global Arguments Ok {A} a.
Global Arguments Throw {A} e.

Global Instance result_ret : MRet result := λ A a, Ok a.
Global Instance result_bind : MBind result := λ A B f r,
  match r with
  | Ok a => f a
  | Throw e => Throw e
  end.

(** [try { body } catch (e) { handler }] *)
Definition try_catch {A} (body : result A) (handler : exn → result A) : result A :=
  match body with
  | Ok a => Ok a
  | Throw e => handler e
  end.

(** [x || y] on an optional string: the left operand when it is truthy. *)
Definition or_else (x : option string) (y : option string) : option string :=
  match x with
  | Some s => if JsString.truthy s then x else y
  | None => y
  end.

End Js.

(** ** Dates *)

Module JsDate.

(** The largest time value, in milliseconds either side of the epoch. *)
Definition max_time : Z := 8640000000000000.

(** A [Date] object holds a time value, or none when it is invalid. *)
Definition t : Type := option Z.

(** [new Date(x)] for a number [x]: [TimeClip]. *)
Definition of_number (x : JsNumber.t) : t :=
  match x with
  | JsNumber.Fin q =>
      if Qle_bool (Qabs q) (inject_Z max_time)
      then Some (JsNumber.trunc q) else None
  | _ => None
  end.

(** [d.toISOString()]; the text stands for the instant it denotes. *)
Definition toISOString (d : t) : Js.result Z :=
  match d with
  | Some ms => Js.Ok ms
  | None => Js.Throw (Js.RangeError "Invalid time value")
  end.

End JsDate.

(** ** The database

    Table [urls] has [code TEXT PRIMARY KEY]: a finite map from the code
    to the row.  Table [visits] has an [AUTOINCREMENT] rowid and no
    index: a list in rowid order, which is the order a scan without
    [ORDER BY] returns. *)

Module Urls.
Record row : Type := Row {
  code : string;
  long_url : string;
  created_at : Z;
  expiry_at : Z;
  last_accessed : option Z;
  clicks : Z
}.
End Urls.

Module Visits.
Record row : Type := Row {
  id : Z;
  code : string;
  ts : Z;
  ip : option string;
  user_agent : option string;
  referrer : option string
}.
End Visits.

Record db : Type := Db {
  urls : gmap string Urls.row;
  visits : list Visits.row
}.

Definition empty_db : db := {| urls := ∅; visits := [] |}.

(** The statements that write.  The environment may make any of them fail
    with a storage error; the SELECT statements are taken to succeed. *)
Inductive stmt : Type :=
| InsertUrl
| UpdateOnVisit
| InsertVisit.

(** What a request handler gets from outside the program. *)
Record env : Type := Env {
  now : Z;                         (* the clock, in milliseconds *)
  nanoid : string;                 (* the result of [nanoid(7)] *)
  logID : string;                  (* [req.logID], set by the middleware *)
  fault : stmt → option string     (* message of the error a statement raises *)
}.

(** [datetime('now')]: the clock in whole seconds. *)
Definition datetime_now (e : env) : Z := now e / 1000.

(** Handlers run statements one after the other in autocommit mode: a
    statement that throws leaves the effects of the earlier ones. *)
Definition M (A : Type) : Type := db → Js.result A * db.

Definition retM {A} (a : A) : M A := λ d, (Js.Ok a, d).
Definition throwM {A} (e : Js.exn) : M A := λ d, (Js.Throw e, d).
Definition bindM {A B} (c : M A) (k : A → M B) : M B := λ d,
  match c d with
  | (Js.Ok a, d') => k a d'
  | (Js.Throw e, d') => (Js.Throw e, d')
  end.
Definition liftM {A} (r : Js.result A) : M A := λ d, (r, d).
Definition try_catchM {A} (body : M A) (handler : Js.exn → M A) : M A := λ d,
  match body d with
  | (Js.Ok a, d') => (Js.Ok a, d')
  | (Js.Throw e, d') => handler e d'
  end.

Declare Scope M_scope.
Delimit Scope M_scope with M.
Notation "x ← y ; z" := (bindM y (λ x, z))
  (at level 20, y at level 100, z at level 200, only parsing) : M_scope.
Notation "y ;; z" := (bindM y (λ _, z))
  (at level 100, z at level 200, only parsing, right associativity) : M_scope.

(** A statement either raises the error the environment dictates or runs. *)
Definition run_stmt (e : env) (s : stmt) (body : M unit) : M unit :=
  match fault e s with
  | Some msg => throwM (Js.SqliteError msg)
  | None => body
  end.

(** [INSERT INTO urls (code, long_url, expiry_at) VALUES (...)] *)
Definition insertUrl (e : env) (code long_url : string) (expiry_at : Z) : M unit :=
  run_stmt e InsertUrl (λ d,
    match urls d !! code with
    | Some _ => (Js.Throw (Js.SqliteError "UNIQUE constraint failed: urls.code"), d)
    | None =>
        (Js.Ok (),
         {| urls := <[code := {| Urls.code := code;
                                 Urls.long_url := long_url;
                                 Urls.created_at := datetime_now e;
                                 Urls.expiry_at := expiry_at;
                                 Urls.last_accessed := None;
                                 Urls.clicks := 0 |}]> (urls d);
            visits := visits d |})
    end).

(** [SELECT * FROM urls WHERE code = ?] *)
Definition findByCode (code : string) : M (option Urls.row) :=
  λ d, (Js.Ok (urls d !! code), d).

Definition visited (e : env) (r : Urls.row) : Urls.row :=
  {| Urls.code := Urls.code r;
     Urls.long_url := Urls.long_url r;
     Urls.created_at := Urls.created_at r;
     Urls.expiry_at := Urls.expiry_at r;
     Urls.last_accessed := Some (datetime_now e);
     Urls.clicks := Urls.clicks r + 1 |}.

(** [UPDATE urls SET clicks = clicks + 1, last_accessed = datetime('now')
    WHERE code = ?] *)
Definition updateOnVisit (e : env) (code : string) : M unit :=
  run_stmt e UpdateOnVisit (λ d,
    (Js.Ok (), {| urls := alter (visited e) code (urls d); visits := visits d |})).

(** [INSERT INTO visits (code, ip, user_agent, referrer) VALUES (?, ?, ?, ?)] *)
Definition insertVisit (e : env) (code : string) (ip user_agent referrer : option string)
  : M unit :=
  run_stmt e InsertVisit (λ d,
    (Js.Ok (),
     {| urls := urls d;
        visits := visits d ++
          [ {| Visits.id := Z.of_nat (length (visits d)) + 1;
               Visits.code := code;
               Visits.ts := datetime_now e;
               Visits.ip := ip;
               Visits.user_agent := user_agent;
               Visits.referrer := referrer |} ] |})).

(** One row of [SELECT ts, ip, user_agent, referrer]. *)
Record click : Type := Click {
  click_ts : Z;
  click_ip : option string;
  click_user_agent : option string;
  click_referrer : option string
}.

Definition click_of (v : Visits.row) : click :=
  {| click_ts := Visits.ts v;
     click_ip := Visits.ip v;
     click_user_agent := Visits.user_agent v;
     click_referrer := Visits.referrer v |}.

Definition visits_of (code : string) (d : db) : list Visits.row :=
  filter (λ v, Visits.code v = code) (visits d).

(** [SELECT ts, ip, user_agent, referrer FROM visits WHERE code = ?] *)
Definition getVisits (code : string) : M (list click) :=
  λ d, (Js.Ok (click_of <$> visits_of code d), d).

(** [SELECT COUNT(DISTINCT ip) as uniques FROM visits WHERE code = ?];
    [COUNT] skips the rows whose [ip] is NULL. *)
Definition countUniqueIPs (code : string) : M Z :=
  λ d, (Js.Ok (Z.of_nat (length (remove_dups (omap Visits.ip (visits_of code d))))), d).

(** ** Requests and responses *)

(** The body of [POST /shorturls]; [url] and [shortcode] are strings or
    missing. *)
Record create_body : Type := CreateBody {
  url : option string;
  validity : Js.value;
  shortcode : option string
}.

Inductive request : Type :=
| PostShorturls (body : create_body)
| GetCode (code : string) (ip user_agent referer : option string)
| GetShorturlsCode (code : string).

Record stats : Type := Stats {
  stats_code : string;
  longUrl : string;
  createdAt : Z;
  expiryAt : Z;
  totalClicks : Z;
  uniqueVisitors : Z;
  detailedClicks : list click
}.

Inductive payload : Type :=
| ErrorBody (error : string)
| CreatedBody (shortLink : string) (expiry : Z)
| StatsBody (s : stats).

Inductive response : Type :=
| Json (status : Z) (log_id : string) (body : payload)
| Redirect (url : string)        (* the handler called [res.redirect(url)] *)
| Uncaught (e : Js.exn).        (* Express answers 500 for a handler that throws *)

(** The part of a [URL] object the server looks at. *)
Record URL : Type := Url {
  scheme : string;
  href : string
}.

(** The [protocol] getter: the scheme followed by a colon. *)
Definition protocol (u : URL) : string := scheme u +:+ ":".

Record config : Type := Config {
  BASE_URL : string;
  DEFAULT_VALIDITY : JsNumber.t      (* the value of [Number(DEFAULT_VALIDITY)] *)
}.

Definition default_config : config :=
  {| BASE_URL := "http://localhost:8080"; DEFAULT_VALIDITY := JsNumber.of_Z 30 |}.

(** [/^[a-zA-Z0-9-_]{4,32}$/] *)
Definition code_re : RegExp.t :=
  RegExp.Cat RegExp.Bol
    (RegExp.Cat
       (RegExp.Quant
          (RegExp.Class [RegExp.Rng "a" "z"; RegExp.Rng "A" "Z"; RegExp.Rng "0" "9";
                         RegExp.Chr "-"; RegExp.Chr "_"]) 4 32)
       RegExp.Eol).


(** The test of the handler on a requested shortcode. *)
Definition isValidCodeSyntax (code : string) : bool := RegExp.test code_re code.

(** The characters a shortcode may hold. *)
Definition code_char (c : ascii) : bool :=
  RegExp.class_has [RegExp.Rng "a" "z"; RegExp.Rng "A" "Z"; RegExp.Rng "0" "9";
                    RegExp.Chr "-"; RegExp.Chr "_"] c.

(** ** The server *)

Section Server.

(** [new URL(str)] succeeds with a URL object or throws. *)
Variable URL_parse : string → option URL.
Variable cfg : config.

Definition new_URL (str : string) : Js.result URL :=
  match URL_parse str with
  | Some u => Js.Ok u
  | None => Js.Throw (Js.TypeError "Invalid URL")
  end.

Definition isValidHttpUrl (str : string) : Js.result bool :=
  Js.try_catch
    (u ← new_URL str;
     mret (String.eqb (protocol u) "http:" || String.eqb (protocol u) "https:"))
    (λ _, mret false).

Definition normalizeCode (input : option string) : string :=
  JsString.toLowerCase (JsString.trim (default "" (Js.or_else input (Some "")))).

Definition computeExpiry (e : env) (minutes : JsNumber.t) : Js.result Z :=
  let expiry :=
    JsDate.of_number
      (JsNumber.add (JsNumber.of_Z (now e))
         (JsNumber.mul (JsNumber.mul minutes (JsNumber.of_Z 60)) (JsNumber.of_Z 1000))) in
  JsDate.toISOString expiry.

(** [Number.isInteger(validity) && validity > 0 ? validity
    : Number(DEFAULT_VALIDITY)] *)
Definition validityMinutes (validity : Js.value) : JsNumber.t :=
  match validity with
  | Js.Num x =>
      if Js.Number_isInteger validity && JsNumber.gt x (JsNumber.of_Z 0)
      then x else DEFAULT_VALIDITY cfg
  | _ => DEFAULT_VALIDITY cfg
  end.

(** [POST /shorturls].  In [!url || !isValidHttpUrl(url)] a missing or
    empty [url] is falsy, and the validation is not called for it. *)
Definition post_shorturls (e : env) (body : create_body) : M response :=
  (valid ← liftM (match url body with
                  | Some u => if JsString.truthy u then isValidHttpUrl u else Js.Ok false
                  | None => Js.Ok false
                  end);
   if negb valid then
     retM (Json 400 (logID e) (ErrorBody "Invalid or missing URL."))
   else
     let long_url := default "" (url body) in
     expiry_at ← liftM (computeExpiry e (validityMinutes (validity body)));
     let code := normalizeCode (shortcode body) in
     if JsString.truthy code && negb (RegExp.test code_re code) then
       retM (Json 400 (logID e)
               (ErrorBody "shortcode must be 4-32 chars, alnum/-,_ only."))
     else
       let code := if JsString.truthy code then code
                   else JsString.toLowerCase (nanoid e) in
       try_catchM
         (insertUrl e code long_url expiry_at;;
          retM (Json 201 (logID e)
                  (CreatedBody (BASE_URL cfg +:+ "/" +:+ code) expiry_at)))
         (λ err,
            if JsString.includes "UNIQUE" (Js.message err) then
              retM (Json 409 (logID e) (ErrorBody "Shortcode already exists."))
            else
              retM (Json 500 (logID e) (ErrorBody "Could not create short URL."))))%M.

(** [GET /:code].  [new Date(row.expiry_at) < new Date()] compares the
    two instants; a missing or empty header is stored as NULL. *)
Definition get_code (e : env) (code_param : string)
    (ip user_agent referer : option string) : M response :=
  (let code := normalizeCode (Some code_param) in
   row ← findByCode code;
   match row with
   | None => retM (Json 404 (logID e) (ErrorBody "Shortcode not found."))
   | Some row =>
       if Urls.expiry_at row <? now e then
         retM (Json 410 (logID e) (ErrorBody "Short link expired."))
       else
         updateOnVisit e code;;
         insertVisit e code ip (Js.or_else user_agent None) (Js.or_else referer None);;
         retM (Redirect (Urls.long_url row))
   end)%M.

(** [GET /shorturls/:code] *)
Definition get_shorturls_code (e : env) (code_param : string) : M response :=
  (let code := normalizeCode (Some code_param) in
   row ← findByCode code;
   match row with
   | None => retM (Json 404 (logID e) (ErrorBody "Shortcode not found."))
   | Some row =>
       visits ← getVisits code;
       uniques ← countUniqueIPs code;
       retM (Json 200 (logID e)
               (StatsBody {| stats_code := code;
                             longUrl := Urls.long_url row;
                             createdAt := Urls.created_at row;
                             expiryAt := Urls.expiry_at row;
                             totalClicks := Urls.clicks row;
                             uniqueVisitors := uniques;
                             detailedClicks := visits |}))
   end)%M.

Definition route (e : env) (r : request) : M response :=
  match r with
  | PostShorturls body => post_shorturls e body
  | GetCode code ip user_agent referer => get_code e code ip user_agent referer
  | GetShorturlsCode code => get_shorturls_code e code
  end.

(** One request against the database: the new database and the
    response; an exception that leaves the handler becomes Express's
    error response. *)
Definition handle (d : db) (e : env) (r : request) : db * response :=
  match route e r d with
  | (Js.Ok resp, d') => (d', resp)
  | (Js.Throw err, d') => (d', Uncaught err)
  end.

(** A run of the server: the requests in the order they are served. *)
Fixpoint run (d : db) (trace : list (env * request)) : db * list response :=
  match trace with
  | [] => (d, [])
  | (e, r) :: trace' =>
      let '(d1, resp) := handle d e r in
      let '(d2, resps) := run d1 trace' in
      (d2, resp :: resps)
  end.

End Server.

(** The row a successful [POST /shorturls] inserts. *)
Definition new_row (e : env) (code long_url : string) (expiry_at : Z) : Urls.row :=
  {| Urls.code := code; Urls.long_url := long_url;
     Urls.created_at := datetime_now e; Urls.expiry_at := expiry_at;
     Urls.last_accessed := None; Urls.clicks := 0 |}.

(** The row a successful [GET /:code] appends to the ledger. *)
Definition new_visit (e : env) (d : db) (code : string)
    (ip user_agent referer : option string) : Visits.row :=
  {| Visits.id := Z.of_nat (length (visits d)) + 1;
     Visits.code := code;
     Visits.ts := datetime_now e;
     Visits.ip := ip;
     Visits.user_agent := Js.or_else user_agent None;
     Visits.referrer := Js.or_else referer None |}.

(** The code a create request is stored under. *)
Definition chosen_code (e : env) (body : create_body) : string :=
  let code := normalizeCode (shortcode body) in
  if JsString.truthy code then code else JsString.toLowerCase (nanoid e).

(** A create request passes the two checks made before the insertion. *)
Definition url_accepted (URL_parse : string → option URL)
    (body : create_body) (u : string) : Prop :=
  url body = Some u ∧ JsString.truthy u = true ∧
  isValidHttpUrl URL_parse u = Js.Ok true.

Definition code_accepted (body : create_body) : Prop :=
  JsString.truthy (normalizeCode (shortcode body)) = true →
  isValidCodeSyntax (normalizeCode (shortcode body)) = true.

(** ** Runs of the server *)

(** The ledger entry of a request that was answered with the redirect
    for [code]. *)
Definition served (code : string) (er : env * request) (resp : response) : option click :=
  match er.2, resp with
  | GetCode c ip user_agent referer, Redirect _ =>
      if decide (normalizeCode (Some c) = code) then
        Some {| click_ts := datetime_now er.1;
                click_ip := ip;
                click_user_agent := Js.or_else user_agent None;
                click_referrer := Js.or_else referer None |}
      else None
  | _, _ => None
  end.

(** The successful redirects for [code] in a run, in the order served. *)
Definition redirects (code : string) (trace : list (env * request))
    (resps : list response) : list click :=
  omap (λ p, served code p.1 p.2) (zip trace resps).

(** The number of distinct non-null addresses among them. *)
Definition distinct_ips (cs : list click) : nat :=
  length (remove_dups (omap click_ip cs)).

(** A redirect request for [code] ended in an uncaught exception. *)
Definition crashed (code : string) (er : env * request) (resp : response) : bool :=
  match er.2, resp with
  | GetCode c _ _ _, Uncaught _ => bool_decide (normalizeCode (Some c) = code)
  | _, _ => false
  end.

Definition no_crash (code : string) (trace : list (env * request))
    (resps : list response) : bool :=
  forallb (λ p, negb (crashed code p.1 p.2)) (zip trace resps).

(** The clock never goes backwards from one request to the next. *)
Definition clock_monotone (trace : list (env * request)) : Prop :=
  StronglySorted Z.le ((λ er, now er.1) <$> trace).

(** The counter of a code agrees with the ledger. *)
Definition counter_ok (code : string) (d : db) : Prop :=
  match urls d !! code with
  | Some row => Urls.clicks row = Z.of_nat (length (visits_of code d))
  | None => visits_of code d = []
  end.

(** A [validity] that is a number with a positive integer value. *)
Definition positive_integer (v : Js.value) : Prop :=
  ∃ q z, v = Js.Num (JsNumber.Fin q) ∧ (q == inject_Z z)%Q ∧ 0 < z.

(** What [nanoid(7)] returns: seven characters of its URL-safe alphabet. *)
Definition is_nanoid (s : string) : Prop :=
  String.length s = 7%nat ∧ JsString.all_chars code_char s = true.

(** ** A stand-in for the platform's URL parser

    Used for the concrete runs below only: it accepts
    [scheme://rest] with an alphabetic scheme and a non-empty rest. *)

Fixpoint split_scheme (s : string) : option (string * string) :=
  match s with
  | String c s' =>
      if Ascii.eqb c ":" then Some (EmptyString, s')
      else match split_scheme s' with
           | Some (sch, rest) => Some (String c sch, rest)
           | None => None
           end
  | EmptyString => None
  end.

Definition is_alpha (c : ascii) : bool :=
  JsString.is_upper c || JsString.is_upper (ascii_of_nat (nat_of_ascii c - 32)).

Definition example_URL_parse (s : string) : option URL :=
  match split_scheme s with
  | Some (sch, rest) =>
      if JsString.truthy sch && JsString.all_chars is_alpha sch
         && String.prefix "//" rest && (2 <? String.length rest)%nat
      then Some {| scheme := JsString.toLowerCase sch; href := s |}
      else None
  | None => None
  end.

(** An environment without storage failures. *)
Definition example_env (t : Z) : env :=
  {| now := t; nanoid := "V1StGXR"; logID := "log-1"; fault := λ _, None |}.

(** An environment in which the ledger append fails. *)
Definition example_failing_env (t : Z) : env :=
  {| now := t; nanoid := "V1StGXR"; logID := "log-2";
     fault := λ s, match s with InsertVisit => Some "disk I/O error" | _ => None end |}.

(** A database holding one link, [mine], created at second 0 and valid
    for 30 minutes. *)
Definition example_row : Urls.row :=
  {| Urls.code := "mine"; Urls.long_url := "https://example.com/page";
     Urls.created_at := 0; Urls.expiry_at := 1800000;
     Urls.last_accessed := None; Urls.clicks := 0 |}.

Definition example_db : db :=
  {| urls := {[ "mine" := example_row ]}; visits := [] |}.

(** A run: the link [mine] is created, then requested four times from
    two addresses (once without an address). *)
Definition example_trace : list (env * request) :=
  [ (example_env 1000,
     PostShorturls (CreateBody (Some "https://example.com/page")
                      (Js.Num (JsNumber.of_Z 5)) (Some "mine")));
    (example_env 2000, GetCode "mine" (Some "203.0.113.7") (Some "curl/8.0") None);
    (example_env 3000, GetCode "MINE" (Some "203.0.113.7") None None);
    (example_env 4000, GetCode "mine" (Some "198.51.100.2") None (Some "https://a.example/"));
    (example_env 5000, GetCode "mine" None None None) ].

(** A run in which the clock is set back between two redirects. *)
Definition example_trace_clock_set_back : list (env * request) :=
  [ (example_env 1000,
     PostShorturls (CreateBody (Some "https://example.com/page")
                      (Js.Num (JsNumber.of_Z 5)) (Some "mine")));
    (example_env 5000, GetCode "mine" (Some "203.0.113.7") None None);
    (example_env 2000, GetCode "mine" (Some "198.51.100.2") None None) ].

(** A create request for the example page. *)
Definition example_create (v : Js.value) (sc : option string) : request :=
  PostShorturls (CreateBody (Some "https://example.com/page") v sc).

(** The example server: the stand-in parser and the default configuration. *)
Definition example_handle : db → env → request → db * response :=
  handle example_URL_parse default_config.

Definition example_db_after (trace : list (env * request)) : db :=
  (run example_URL_parse default_config empty_db trace).1.

(** ** Shapes of strings and of responses *)


Definition first_char (s : string) : option ascii :=
  match s with
  | String c _ => Some c
  | EmptyString => None
  end.

Fixpoint last_char (s : string) : option ascii :=
  match s with
  | String c EmptyString => Some c
  | String _ s' => last_char s'
  | EmptyString => None
  end.

(** The answer of a create request that inserted a row. *)
Definition is_created (resp : response) : bool :=
  match resp with
  | Json _ _ (CreatedBody _ _) => true
  | _ => false
  end.

Definition is_redirect (resp : response) : bool :=
  match resp with
  | Redirect _ => true
  | _ => false
  end.

(** What the rows of a database reached by the server satisfy: a row is
    stored under its own code, its counter is at least the size of its
    ledger, and it has a last-access time exactly when it was counted;
    the ledger only names stored codes, and its rowids count from 1. *)
Record db_consistent (d : db) : Prop := DbConsistent {
  row_under_its_code : ∀ k row, urls d !! k = Some row → Urls.code row = k;
  counter_covers_ledger : ∀ k row, urls d !! k = Some row →
    Z.of_nat (length (visits_of k d)) ≤ Urls.clicks row;
  accessed_iff_counted : ∀ k row, urls d !! k = Some row →
    (Urls.last_accessed row = None ↔ Urls.clicks row = 0);
  visits_name_rows : ∀ v, v ∈ visits d → is_Some (urls d !! Visits.code v);
  rowids_count_up : ∀ i v, visits d !! i = Some v → Visits.id v = Z.of_nat i + 1
}.

(** ** The logging middleware ([loging-middleware.js])

    The middleware touches the directory [./data] and the file
    [./data/logs.txt].  A line of the file is [JSON.stringify(logData)]
    followed by a newline; it is kept as the object it serialises. *)

Record logData : Type := LogData {
  log_logID : string;
  log_message : string
}.

Module Fs.

(** Whether [./data] exists, and the lines of [./data/logs.txt] (none
    while the file does not exist). *)
Record t : Type := State {
  data_dir : bool;
  logs_txt : option (list logData)
}.

Inductive op : Type :=
| MkdirSync
| AppendFileSync.

(** A call returns the new state or throws an error with a code. *)
Inductive result : Type :=
| Done (fs : t)
| Error (code : string).

(** [fs.mkdirSync('./data', { recursive: true })]: no error when the
    directory exists. *)
Definition mkdirSync (fault : op → option string) (fs : t) : result :=
  match fault MkdirSync with
  | Some code => Error code
  | None => Done {| data_dir := true; logs_txt := logs_txt fs |}
  end.

(** [fs.appendFileSync('./data/logs.txt', line)]: creates the file when it
    is missing; fails when the directory is. *)
Definition appendFileSync (fault : op → option string) (line : logData) (fs : t) : result :=
  match fault AppendFileSync with
  | Some code => Error code
  | None =>
      if data_dir fs
      then Done {| data_dir := true;
                   logs_txt := Some (default [] (logs_txt fs) ++ [line]) |}
      else Error "ENOENT"
  end.

Definition lines (fs : t) : list logData := default [] (logs_txt fs).

End Fs.

(** What one request meets outside the program. *)
Record world : Type := World {
  randomUUID : string;
  fs_fault : Fs.op → option string;
  clock : Z;
  generated : string;
  db_fault : stmt → option string
}.

(** [loggingMiddleware(req, res, next)] up to the call of [next]: the new
    file system and the [logID] attached to the request.  The [try] block
    is left at the first call that throws, and the error is dropped. *)
Definition loggingMiddleware (w : world) (fs : Fs.t) : Fs.t * string :=
  let logID := randomUUID w in
  let logData := {| log_logID := logID; log_message := "log created successfully" |} in
  let fs' :=
    match Fs.mkdirSync (fs_fault w) fs with
    | Fs.Done fs1 =>
        match Fs.appendFileSync (fs_fault w) logData fs1 with
        | Fs.Done fs2 => fs2
        | Fs.Error _ => fs1
        end
    | Fs.Error _ => fs
    end in
  (fs', logID).

(** The environment of the handler that [next()] reaches. *)
Definition env_of (w : world) (logID : string) : env :=
  {| now := clock w; nanoid := generated w; logID := logID; fault := db_fault w |}.

(** One request through the middleware and its route. *)
Definition serve (URL_parse : string → option URL) (cfg : config)
    (st : Fs.t * db) (w : world) (r : request) : (Fs.t * db) * response :=
  let '(fs', logID) := loggingMiddleware w st.1 in
  let '(d', resp) := handle URL_parse cfg st.2 (env_of w logID) r in
  ((fs', d'), resp).

Fixpoint serve_all (URL_parse : string → option URL) (cfg : config)
    (st : Fs.t * db) (trace : list (world * request)) : (Fs.t * db) * list response :=
  match trace with
  | [] => (st, [])
  | (w, r) :: trace' =>
      let '(st1, resp) := serve URL_parse cfg st w r in
      let '(st2, resps) := serve_all URL_parse cfg st1 trace' in
      (st2, resp :: resps)
  end.

(** The log line of a request whose two file-system calls succeed. *)
Definition logged (w : world) : option logData :=
  match fs_fault w Fs.MkdirSync, fs_fault w Fs.AppendFileSync with
  | None, None =>
      Some {| log_logID := randomUUID w; log_message := "log created successfully" |}
  | _, _ => None
  end.

(** The [logID] a response carries, if it is a JSON response. *)
Definition response_logID (resp : response) : option string :=
  match resp with
  | Json _ l _ => Some l
  | _ => None
  end.

(** A world without failures, for the concrete runs. *)
Definition example_world (id : string) (t : Z) : world :=
  {| randomUUID := id; fs_fault := λ _, None; clock := t;
     generated := "V1StGXR"; db_fault := λ _, None |}.

(** ** What Express sends for a redirect *)

(** The [Location] header of the response: [res.redirect(url)] sets it to
    [encodeUrl(url)], the percent-encoding of the URL by the platform. *)
Definition Location (encodeUrl : string → string) (resp : response) : option string :=
  match resp with
  | Redirect url => Some (encodeUrl url)
  | _ => None
  end.

(** A stand-in for [encodeUrl], for the concrete runs only: it escapes the
    space character and keeps every other character. *)
Fixpoint example_encodeUrl (s : string) : string :=
  match s with
  | String c s' =>
      if Ascii.eqb c " " then "%20" +:+ example_encodeUrl s'
      else String c (example_encodeUrl s')
  | EmptyString => EmptyString
  end.

(** Text of ASCII characters only. *)
Definition ascii_only (s : string) : bool :=
  JsString.all_chars (λ c, (nat_of_ascii c <? 128)%nat) s.

(** A run in which the ledger append of one redirect request fails. *)
Definition example_trace_failed_visit : list (env * request) :=
  [ (example_env 1000,
     PostShorturls (CreateBody (Some "https://example.com/page")
                      (Js.Num (JsNumber.of_Z 5)) (Some "mine")));
    (example_failing_env 2000, GetCode "mine" (Some "203.0.113.7") None None);
    (example_env 3000, GetCode "mine" (Some "203.0.113.7") None None) ].

(** * Properties *)

(** ** Strings and regular expressions *)

Module RegExpFacts.
Import RegExp.


(** Bounded repetition of a class consumes a prefix of class
    characters whose length lies within the bounds. *)
Lemma repeat_class cs hi : ∀ lo i s k,
  repeat_m (m (Class cs)) hi lo i s k = true ↔
  ∃ pre suf, s = pre +:+ suf ∧
    (lo ≤ String.length pre ≤ hi)%nat ∧
    JsString.all_chars (class_has cs) pre = true ∧
    k (i + String.length pre)%nat suf = true.
Proof.
  induction hi as [|hi IH]; intros lo i s k; simpl.
  - rewrite andb_true_iff, Nat.eqb_eq. split.
    + intros [-> Hk]. exists EmptyString, s. simpl.
      rewrite Nat.add_0_r. repeat split; auto.
    + intros (pre & suf & -> & [Hlo Hhi] & _ & Hk).
      destruct pre; simpl in *; [|lia].
      rewrite Nat.add_0_r in Hk. split; [lia | done].
  - rewrite orb_true_iff. split.
    + intros [Hstep | Hstop].
      * destruct s as [|c s]; [done|].
        apply andb_true_iff in Hstep as [Hc Hrest].
        apply IH in Hrest as (pre & suf & -> & [Hlo Hhi] & Hall & Hk).
        exists (String c pre), suf. simpl. rewrite Hc, Hall.
        replace (i + S (String.length pre))%nat with (S i + String.length pre)%nat by lia.
        repeat split; auto; lia.
      * apply andb_true_iff in Hstop as [Hlo Hk]. apply Nat.eqb_eq in Hlo as ->.
        exists EmptyString, s. simpl. rewrite Nat.add_0_r.
        repeat split; auto; lia.
    + intros (pre & suf & -> & [Hlo Hhi] & Hall & Hk).
      destruct pre as [|c pre]; simpl in *.
      * right. change (EmptyString +:+ suf) with suf.
        rewrite Nat.add_0_r in Hk. rewrite Hk.
        assert (lo = 0)%nat as -> by lia. done.
      * left. change (String c pre +:+ suf) with (String c (pre +:+ suf)).
        apply andb_true_iff in Hall as [Hc Hall]. rewrite Hc. simpl.
        apply IH. exists pre, suf.
        replace (S i + String.length pre)%nat with (i + S (String.length pre))%nat by lia.
        repeat split; auto; lia.
Qed.

(** A pattern that starts with [^] matches at the first position only. *)
Lemma search_bol r i s :
  search (Cat Bol r) (S i) s = false.
Proof.
  revert i. induction s as [|c s IH]; intros i; simpl; [done|]. by rewrite IH.
Qed.

Lemma append_empty_r (s : string) : s +:+ EmptyString = s.
Proof.
  induction s as [|c s IH]; [done|].
  change (String c (s +:+ EmptyString) = String c s). by rewrite IH.
Qed.

(** [^[cs]{lo,hi}$] accepts the strings of [lo] to [hi] characters, all
    of them in the class. *)
Lemma test_anchored_class cs lo hi s :
  test (Cat Bol (Cat (Quant (Class cs) lo hi) Eol)) s = true ↔
  (lo ≤ String.length s ≤ hi)%nat ∧ JsString.all_chars (class_has cs) s = true.
Proof.
  unfold test.
  assert (search (Cat Bol (Cat (Quant (Class cs) lo hi) Eol)) 0%nat s =
          repeat_m (m (Class cs)) hi lo 0%nat s
            (λ i' s', match s' with EmptyString => true | _ => false end)) as ->.
  { destruct s as [|c s]; simpl; [by rewrite orb_false_r|].
    by rewrite search_bol, orb_false_r. }
  rewrite repeat_class. split.
  - intros (pre & suf & -> & Hlen & Hall & Hk).
    destruct suf; [|done]. by rewrite append_empty_r.
  - intros [Hlen Hall]. exists s, EmptyString. by rewrite append_empty_r.
Qed.

End RegExpFacts.


Lemma isValidCodeSyntax_iff (s : string) :
  isValidCodeSyntax s = true ↔
  (4 ≤ String.length s ≤ 32)%nat ∧ JsString.all_chars code_char s = true.
Proof. apply RegExpFacts.test_anchored_class. Qed.


(** ** The handlers, statement by statement *)

Section HandlerEquations.

Variable URL_parse : string → option URL.
Variable cfg : config.

Lemma get_code_eq d e c ip ua ref :
  handle URL_parse cfg d e (GetCode c ip ua ref) =
  let code := normalizeCode (Some c) in
  match urls d !! code with
  | None => (d, Json 404 (logID e) (ErrorBody "Shortcode not found."))
  | Some row =>
      if Urls.expiry_at row <? now e then
        (d, Json 410 (logID e) (ErrorBody "Short link expired."))
      else
        match fault e UpdateOnVisit with
        | Some msg => (d, Uncaught (Js.SqliteError msg))
        | None =>
            let d1 := {| urls := alter (visited e) code (urls d); visits := visits d |} in
            match fault e InsertVisit with
            | Some msg => (d1, Uncaught (Js.SqliteError msg))
            | None =>
                ({| urls := urls d1;
                    visits := visits d ++ [new_visit e d code ip ua ref] |},
                 Redirect (Urls.long_url row))
            end
        end
  end.
Proof.
  unfold handle, route, get_code, bindM, findByCode, retM. cbv zeta.
  destruct (urls d !! normalizeCode (Some c)) as [row|]; [|done].
  destruct (Urls.expiry_at row <? now e); [done|].
  unfold updateOnVisit, insertVisit, run_stmt, throwM.
  destruct (fault e UpdateOnVisit); [done|].
  destruct (fault e InsertVisit); done.
Qed.

Lemma get_shorturls_code_eq d e c :
  handle URL_parse cfg d e (GetShorturlsCode c) =
  let code := normalizeCode (Some c) in
  match urls d !! code with
  | None => (d, Json 404 (logID e) (ErrorBody "Shortcode not found."))
  | Some row =>
      (d, Json 200 (logID e)
            (StatsBody
               {| stats_code := code;
                  longUrl := Urls.long_url row;
                  createdAt := Urls.created_at row;
                  expiryAt := Urls.expiry_at row;
                  totalClicks := Urls.clicks row;
                  uniqueVisitors :=
                    Z.of_nat (length (remove_dups (omap Visits.ip (visits_of code d))));
                  detailedClicks := click_of <$> visits_of code d |}))
  end.
Proof.
  unfold handle, route, get_shorturls_code, bindM, findByCode, retM. cbv zeta.
  by destruct (urls d !! normalizeCode (Some c)).
Qed.

(** A create request whose URL and shortcode pass the checks and whose
    expiry is a valid date reaches the insertion. *)
Lemma post_shorturls_insert_eq d e body u exp :
  url_accepted URL_parse body u →
  computeExpiry e (validityMinutes cfg (validity body)) = Js.Ok exp →
  code_accepted body →
  handle URL_parse cfg d e (PostShorturls body) =
  let code := chosen_code e body in
  match fault e InsertUrl with
  | Some msg =>
      (d, if JsString.includes "UNIQUE" msg
          then Json 409 (logID e) (ErrorBody "Shortcode already exists.")
          else Json 500 (logID e) (ErrorBody "Could not create short URL."))
  | None =>
      match urls d !! code with
      | Some _ => (d, Json 409 (logID e) (ErrorBody "Shortcode already exists."))
      | None =>
          ({| urls := <[code := new_row e code u exp]> (urls d); visits := visits d |},
           Json 201 (logID e) (CreatedBody (BASE_URL cfg +:+ "/" +:+ code) exp))
      end
  end.
Proof.
  intros (Hu & Htruthy & Hvalid) Hexp Hcode.
  unfold handle, route, post_shorturls, bindM, liftM, retM, try_catchM.
  rewrite Hu, Htruthy, Hvalid, Hexp. cbn [negb default].
  unfold code_accepted, isValidCodeSyntax in Hcode. unfold chosen_code. cbv zeta.
  destruct (JsString.truthy (normalizeCode (shortcode body))) eqn:Hnc.
  - rewrite (Hcode eq_refl). cbn [negb andb].
    unfold insertUrl, run_stmt, throwM.
    destruct (fault e InsertUrl) as [msg|].
    + cbn [Js.message]. by destruct (JsString.includes "UNIQUE" msg).
    + by destruct (urls d !! normalizeCode (shortcode body)).
  - cbn [andb].
    unfold insertUrl, run_stmt, throwM.
    destruct (fault e InsertUrl) as [msg|].
    + cbn [Js.message]. by destruct (JsString.includes "UNIQUE" msg).
    + by destruct (urls d !! JsString.toLowerCase (nanoid e)).
Qed.

(** A create request either writes nothing and is not answered 201, or
    it passed every check and added one row under a code that was free. *)
Lemma post_shorturls_cases d e body :
  (fst (handle URL_parse cfg d e (PostShorturls body)) = d ∧
   ∀ l link exp,
     snd (handle URL_parse cfg d e (PostShorturls body)) ≠
     Json 201 l (CreatedBody link exp)) ∨
  (∃ u exp,
     url_accepted URL_parse body u ∧ code_accepted body ∧
     computeExpiry e (validityMinutes cfg (validity body)) = Js.Ok exp ∧
     fault e InsertUrl = None ∧
     urls d !! chosen_code e body = None ∧
     handle URL_parse cfg d e (PostShorturls body) =
       ({| urls := <[chosen_code e body := new_row e (chosen_code e body) u exp]> (urls d);
           visits := visits d |},
        Json 201 (logID e)
          (CreatedBody (BASE_URL cfg +:+ "/" +:+ chosen_code e body) exp))).
Proof.
  destruct (url body) as [u|] eqn:Hu; [|by left; unfold handle; cbn; rewrite Hu].
  destruct (JsString.truthy u) eqn:Htruthy;
    [|by left; unfold handle; cbn; rewrite Hu, Htruthy].
  destruct (isValidHttpUrl URL_parse u) as [[|]|err] eqn:Hvalid;
    [|by left; unfold handle; cbn; rewrite Hu, Htruthy, Hvalid..].
  destruct (computeExpiry e (validityMinutes cfg (validity body))) as [exp|err] eqn:Hexp;
    [|by left; unfold handle; cbn; rewrite Hu, Htruthy, Hvalid; cbn; rewrite Hexp].
  destruct (JsString.truthy (normalizeCode (shortcode body)) &&
            negb (isValidCodeSyntax (normalizeCode (shortcode body)))) eqn:Hsyntax.
  { left. unfold handle, isValidCodeSyntax in *. cbn.
    rewrite Hu, Htruthy, Hvalid. cbn. rewrite Hexp, Hsyntax. done. }
  assert (code_accepted body) as Hcode.
  { intros Hnc. rewrite Hnc in Hsyntax. by destruct (isValidCodeSyntax _). }
  rewrite (post_shorturls_insert_eq d e body u exp); [|done..]. cbv zeta.
  destruct (fault e InsertUrl) as [msg|] eqn:Hfault.
  { left. by destruct (JsString.includes "UNIQUE" msg). }
  destruct (urls d !! chosen_code e body) eqn:Hfree; [by left|].
  right. by exists u, exp.
Qed.

End HandlerEquations.

(** ** URL validation *)

Lemma append_char_inj (c : ascii) : ∀ s t : string,
  s +:+ String c EmptyString = t +:+ String c EmptyString → s = t.
Proof.
  induction s as [|a s IH]; intros [|b t] H.
  - done.
  - change (String c EmptyString = String b (t +:+ String c EmptyString)) in H.
    injection H as _ H. by destruct t.
  - change (String a (s +:+ String c EmptyString) = String c EmptyString) in H.
    injection H as _ H. by destruct s.
  - change (String a (s +:+ String c EmptyString) =
            String b (t +:+ String c EmptyString)) in H.
    injection H as -> H. f_equal. by apply IH.
Qed.

Lemma protocol_is (u : URL) (sch : string) :
  String.eqb (protocol u) (sch +:+ ":") = true ↔ scheme u = sch.
Proof.
  rewrite String.eqb_eq. unfold protocol. split; [apply append_char_inj | by intros ->].
Qed.

(** C9.  [isValidHttpUrl] never throws, and it answers true exactly for
    the strings that the URL constructor parses into a URL whose scheme is
    [http] or [https]; a string that does not parse, or parses with another
    scheme, is answered false. *)
Theorem isValidHttpUrl_iff_http_scheme (URL_parse : string → option URL) (str : string) :
  ∃ b, isValidHttpUrl URL_parse str = Js.Ok b ∧
       (b = true ↔
        ∃ u, URL_parse str = Some u ∧ (scheme u = "http" ∨ scheme u = "https")).
Proof.
  unfold isValidHttpUrl, new_URL.
  destruct (URL_parse str) as [u|]; cbn.
  - eexists; split; [reflexivity|].
    rewrite orb_true_iff.
    rewrite (protocol_is u "http"), (protocol_is u "https").
    split.
    + intros H. by exists u.
    + by intros (u' & [= <-] & H).
  - exists false. split; [done|]. split; [done|]. by intros (u & ? & _).
Qed.

(** ** The validity of a create request *)

Lemma validityMinutes_default (cfg : config) (v : Js.value) :
  ¬ positive_integer v → validityMinutes cfg v = DEFAULT_VALIDITY cfg.
Proof.
  intros Hv. destruct v as [| |b|x|s|]; try reflexivity.
  unfold validityMinutes, Js.Number_isInteger.
  destruct x as [q| | |]; try reflexivity. cbn.
  destruct (Qeq_bool q (inject_Z (Qfloor q))) eqn:Hint; [|reflexivity].
  destruct (Qle_bool q (inject_Z 0)) eqn:Hle; [reflexivity|].
  exfalso. apply Hv. exists q, (Qfloor q). split; [done|].
  apply Qeq_bool_iff in Hint. split; [done|].
  assert (¬ (q <= inject_Z 0)%Q) as Hpos by (rewrite <- Qle_bool_iff; congruence).
  apply Qnot_le_lt in Hpos. rewrite Hint in Hpos.
  by rewrite Zlt_Qlt.
Qed.

Lemma computeExpiry_integer_minutes (e : env) (minutes : Z) :
  Z.abs (now e + minutes * 60000) ≤ JsDate.max_time →
  computeExpiry e (JsNumber.of_Z minutes) = Js.Ok (now e + minutes * 60000).
Proof.
  intros Hrange. unfold computeExpiry, JsNumber.of_Z. cbn [JsNumber.mul JsNumber.add].
  set (q := (inject_Z (now e) + inject_Z minutes * inject_Z 60 * inject_Z 1000)%Q).
  assert (q == inject_Z (now e + minutes * 60000))%Q as Hq.
  { unfold q. rewrite <- !inject_Z_mult, <- inject_Z_plus.
    apply inject_Z_injective. lia. }
  unfold JsDate.of_number.
  assert (Qle_bool (Qabs q) (inject_Z JsDate.max_time) = true) as ->.
  { apply Qle_bool_iff. rewrite Hq. unfold inject_Z. rewrite <- Zabs_Qabs.
    unfold Qle. simpl. lia. }
  unfold JsNumber.trunc, JsDate.toISOString.
  rewrite (Qfloor_comp _ _ Hq), (Qceiling_comp _ _ Hq), Qfloor_Z, Qceiling_Z.
  by destruct (Qle_bool 0 q).
Qed.

(** C10.  A create request whose [validity] is anything but a number with
    a positive integer value (zero, a negative or fractional number, a
    numeric string) is not rejected for it: the configured default takes
    its place and the request is answered as if [validity] were missing.
    When the request passes the checks of its URL and shortcode, its code
    is free and the insertion works, it is answered 201 and the row is
    stored with the expiry the default gives: for a default of [n] whole
    minutes, [n] minutes after the request, 30 minutes with the default
    configuration. *)
Theorem invalid_validity_falls_back_to_default
    (URL_parse : string → option URL) (cfg : config) (d : db) (e : env)
    (u sc : option string) (v : Js.value) :
  ¬ positive_integer v →
  validityMinutes cfg v = DEFAULT_VALIDITY cfg ∧
  handle URL_parse cfg d e (PostShorturls (CreateBody u v sc)) =
    handle URL_parse cfg d e (PostShorturls (CreateBody u Js.Undefined sc)) ∧
  (Z.abs (now e + 1800000) ≤ JsDate.max_time →
   computeExpiry e (validityMinutes default_config v) = Js.Ok (now e + 1800000)) ∧
  (∀ long_url n,
     url_accepted URL_parse (CreateBody u v sc) long_url →
     code_accepted (CreateBody u v sc) →
     fault e InsertUrl = None →
     urls d !! chosen_code e (CreateBody u v sc) = None →
     DEFAULT_VALIDITY cfg = JsNumber.of_Z n →
     Z.abs (now e + n * 60000) ≤ JsDate.max_time →
     handle URL_parse cfg d e (PostShorturls (CreateBody u v sc)) =
       ({| urls := <[chosen_code e (CreateBody u v sc) :=
                      new_row e (chosen_code e (CreateBody u v sc)) long_url
                        (now e + n * 60000)]> (urls d);
           visits := visits d |},
        Json 201 (logID e)
          (CreatedBody (BASE_URL cfg +:+ "/" +:+ chosen_code e (CreateBody u v sc))
             (now e + n * 60000)))).
Proof.
  intros Hv. split; [by apply validityMinutes_default|]. split; [|split].
  - unfold handle, route, post_shorturls. cbn [validity].
    by rewrite (validityMinutes_default cfg v Hv).
  - intros Hrange. rewrite (validityMinutes_default default_config v Hv).
    apply (computeExpiry_integer_minutes e 30). exact Hrange.
  - intros long_url n Hurl Hcode Hfault Hfree Hdefault Hrange.
    rewrite (post_shorturls_insert_eq URL_parse cfg d e _ long_url (now e + n * 60000));
      [|done| |done].
    + cbv zeta. by rewrite Hfault, Hfree.
    + cbn [validity]. rewrite (validityMinutes_default cfg v Hv), Hdefault.
      by apply computeExpiry_integer_minutes.
Qed.

Lemma zero_not_positive_integer : ¬ positive_integer (Js.Num (JsNumber.of_Z 0)).
Proof.
  intros (q & z & [= <-] & Hq & Hz). unfold Qeq in Hq. simpl in Hq. lia.
Qed.

Lemma negative_not_positive_integer : ¬ positive_integer (Js.Num (JsNumber.of_Z (-5))).
Proof.
  intros (q & z & [= <-] & Hq & Hz). unfold Qeq in Hq. simpl in Hq. lia.
Qed.

Lemma fraction_not_positive_integer : ¬ positive_integer (Js.Num (JsNumber.Fin (5 # 2))).
Proof.
  intros (q & z & [= <-] & Hq & Hz). unfold Qeq in Hq. simpl in Hq. lia.
Qed.

Lemma string_not_positive_integer (s : string) : ¬ positive_integer (Js.Str s).
Proof. by intros (q & z & [=] & _). Qed.

Lemma invalid_validity_falls_back_to_default_witness :
  example_handle empty_db (example_env 1000) (example_create (Js.Num (JsNumber.of_Z 0)) None) =
    example_handle empty_db (example_env 1000) (example_create Js.Undefined None) ∧
  example_handle empty_db (example_env 1000) (example_create (Js.Num (JsNumber.of_Z (-5))) None) =
    example_handle empty_db (example_env 1000) (example_create Js.Undefined None) ∧
  example_handle empty_db (example_env 1000) (example_create (Js.Num (JsNumber.Fin (5 # 2))) None) =
    example_handle empty_db (example_env 1000) (example_create Js.Undefined None) ∧
  example_handle empty_db (example_env 1000) (example_create (Js.Str "15") None) =
    example_handle empty_db (example_env 1000) (example_create Js.Undefined None) ∧
  (example_handle empty_db (example_env 1000) (example_create (Js.Str "15") None)).2 =
    Json 201 "log-1" (CreatedBody "http://localhost:8080/v1stgxr" 1801000).
Proof.
  pose proof (λ v, invalid_validity_falls_back_to_default example_URL_parse
                default_config empty_db (example_env 1000)
                (Some "https://example.com/page") None v) as fallback.
  unfold example_handle, example_create.
  split; [|split; [|split; [|split]]].
  - exact (proj1 (proj2 (fallback _ zero_not_positive_integer))).
  - exact (proj1 (proj2 (fallback _ negative_not_positive_integer))).
  - exact (proj1 (proj2 (fallback _ fraction_not_positive_integer))).
  - exact (proj1 (proj2 (fallback _ (string_not_positive_integer "15")))).
  - rewrite (proj2 (proj2 (proj2 (fallback _ (string_not_positive_integer "15"))))
               "https://example.com/page" 30);
      [reflexivity | by vm_compute | | reflexivity | by vm_compute | reflexivity |
       by vm_compute].
    intros H. by vm_compute in H.
Defined.

(** ** Redirection *)

(** C2.  A redirect request for a stored link whose expiry lies before
    the time of the call is answered 410 (expired) and leaves the database
    as it was: no visit is appended, and the row keeps its click counter
    and its last-access time. *)
Theorem expired_link_answers_gone_without_recording
    (URL_parse : string → option URL) (cfg : config) (d : db) (e : env)
    (c : string) (ip user_agent referer : option string) (row : Urls.row) :
  urls d !! normalizeCode (Some c) = Some row →
  Urls.expiry_at row < now e →
  let (d', resp) := handle URL_parse cfg d e (GetCode c ip user_agent referer) in
  resp = Json 410 (logID e) (ErrorBody "Short link expired.") ∧
  d' = d ∧
  visits d' = visits d ∧
  urls d' !! normalizeCode (Some c) = Some row.
Proof.
  intros Hrow Hexp. rewrite get_code_eq. cbv zeta. rewrite Hrow.
  apply Z.ltb_lt in Hexp. by rewrite Hexp.
Qed.

Lemma expired_link_answers_gone_without_recording_witness :
  example_handle example_db (example_env 1800001)
    (GetCode "Mine" (Some "203.0.113.7") None None) =
  (example_db, Json 410 "log-1" (ErrorBody "Short link expired.")).
Proof.
  unfold example_handle.
  pose proof (expired_link_answers_gone_without_recording example_URL_parse
                default_config example_db (example_env 1800001) "Mine"
                (Some "203.0.113.7") None None example_row) as H.
  destruct (handle example_URL_parse default_config example_db (example_env 1800001)
              (GetCode "Mine" (Some "203.0.113.7") None None)) as [d' resp].
  destruct H as (-> & -> & _); [by vm_compute | by vm_compute | reflexivity].
Defined.

(** C6.  For a code without a row in table [urls], the redirect handler
    and the statistics handler both answer 404 (not found) and leave the
    database as it was. *)
Theorem unknown_code_answers_not_found
    (URL_parse : string → option URL) (cfg : config) (d : db) (e : env)
    (c : string) (ip user_agent referer : option string) :
  urls d !! normalizeCode (Some c) = None →
  handle URL_parse cfg d e (GetCode c ip user_agent referer) =
    (d, Json 404 (logID e) (ErrorBody "Shortcode not found.")) ∧
  handle URL_parse cfg d e (GetShorturlsCode c) =
    (d, Json 404 (logID e) (ErrorBody "Shortcode not found.")).
Proof.
  intros Hnone. rewrite get_code_eq, get_shorturls_code_eq. cbv zeta.
  by rewrite Hnone.
Qed.

Lemma unknown_code_answers_not_found_witness :
  example_handle example_db (example_env 1000)
    (GetCode "other" (Some "203.0.113.7") None None) =
    (example_db, Json 404 "log-1" (ErrorBody "Shortcode not found.")) ∧
  example_handle example_db (example_env 1000)
    (GetShorturlsCode "other") =
    (example_db, Json 404 "log-1" (ErrorBody "Shortcode not found.")).
Proof.
  unfold example_handle.
  apply (unknown_code_answers_not_found example_URL_parse default_config example_db
           (example_env 1000) "other" (Some "203.0.113.7") None None).
  by vm_compute.
Defined.

(** The response of the redirect handler for a stored link that has not
    expired, by the outcome of the two analytics statements. *)
Lemma get_code_live_response
    (URL_parse : string → option URL) (cfg : config) (d : db) (e : env)
    (c : string) (ip user_agent referer : option string) (row : Urls.row) :
  urls d !! normalizeCode (Some c) = Some row →
  now e ≤ Urls.expiry_at row →
  snd (handle URL_parse cfg d e (GetCode c ip user_agent referer)) =
    match fault e UpdateOnVisit, fault e InsertVisit with
    | Some msg, _ => Uncaught (Js.SqliteError msg)
    | None, Some msg => Uncaught (Js.SqliteError msg)
    | None, None => Redirect (Urls.long_url row)
    end.
Proof.
  intros Hrow Hlive. rewrite get_code_eq. cbv zeta. rewrite Hrow.
  assert ((Urls.expiry_at row <? now e) = false) as -> by (apply Z.ltb_ge; lia).
  destruct (fault e UpdateOnVisit); [done|].
  by destruct (fault e InsertVisit).
Qed.

(** C4, as the code has it.  For a stored link that has not expired, the
    redirect to the stored long URL is served exactly when neither
    analytics statement fails.  When the counter update or the ledger
    append raises a storage error, the error leaves the handler and the
    request is answered with that error instead of the redirect; a failing
    ledger append comes after the counter was already incremented. *)
Theorem redirect_served_iff_analytics_recorded
    (URL_parse : string → option URL) (cfg : config) (d : db) (e : env)
    (c : string) (ip user_agent referer : option string) (row : Urls.row) :
  urls d !! normalizeCode (Some c) = Some row →
  now e ≤ Urls.expiry_at row →
  let (d', resp) := handle URL_parse cfg d e (GetCode c ip user_agent referer) in
  (resp = Redirect (Urls.long_url row) ↔
   fault e UpdateOnVisit = None ∧ fault e InsertVisit = None) ∧
  (∀ msg, fault e UpdateOnVisit = Some msg →
     resp = Uncaught (Js.SqliteError msg) ∧ d' = d) ∧
  (∀ msg, fault e UpdateOnVisit = None → fault e InsertVisit = Some msg →
     resp = Uncaught (Js.SqliteError msg) ∧
     visits d' = visits d ∧
     urls d' !! normalizeCode (Some c) = Some (visited e row)).
Proof.
  intros Hrow Hlive. rewrite get_code_eq. cbv zeta. rewrite Hrow.
  assert ((Urls.expiry_at row <? now e) = false) as -> by (apply Z.ltb_ge; lia).
  destruct (fault e UpdateOnVisit) as [m1|].
  { split; [split; [done | by intros [? _]]|]. split; [by intros ? [= ->]|done]. }
  destruct (fault e InsertVisit) as [m2|].
  - split; [split; [done | by intros [_ ?]]|]. split; [done|].
    intros msg _ [= ->]. cbn [urls visits]. split; [done|]. split; [done|].
    by rewrite lookup_alter_eq, Hrow.
  - split; [done|]. split; done.
Qed.

Lemma redirect_served_iff_analytics_recorded_witness :
  snd (example_handle example_db (example_env 1000)
         (GetCode "mine" (Some "203.0.113.7") None None)) =
  Redirect "https://example.com/page".
Proof.
  unfold example_handle.
  pose proof (redirect_served_iff_analytics_recorded example_URL_parse
                default_config example_db (example_env 1000) "mine"
                (Some "203.0.113.7") None None example_row) as H.
  destruct (handle example_URL_parse default_config example_db (example_env 1000)
              (GetCode "mine" (Some "203.0.113.7") None None)) as [d' resp].
  destruct H as [[_ H] _]; [by vm_compute | by vm_compute |].
  by apply H.
Defined.

(** C4, as stated, fails: the link [mine] is stored and has not expired,
    the ledger append raises a storage error, and the request is answered
    with that error; the counter has been incremented all the same. *)
Lemma analytics_failure_prevents_redirect :
  urls example_db !! "mine" = Some example_row ∧
  now (example_failing_env 1000) ≤ Urls.expiry_at example_row ∧
  example_handle example_db (example_failing_env 1000)
    (GetCode "mine" (Some "203.0.113.7") None None) =
  ({| urls := {[ "mine" := visited (example_failing_env 1000) example_row ]};
      visits := [] |},
   Uncaught (Js.SqliteError "disk I/O error")).
Proof. by vm_compute. Qed.

(** ** Creation *)

Section Creation.

Variable URL_parse : string → option URL.
Variable cfg : config.

(** What a request answered 201 did to the database. *)
Lemma created_inversion d e body d1 l link exp :
  handle URL_parse cfg d e (PostShorturls body) = (d1, Json 201 l (CreatedBody link exp)) →
  ∃ u, url_accepted URL_parse body u ∧ code_accepted body ∧
    urls d !! chosen_code e body = None ∧
    d1 = {| urls := <[chosen_code e body := new_row e (chosen_code e body) u exp]> (urls d);
            visits := visits d |}.
Proof.
  intros H.
  destruct (post_shorturls_cases URL_parse cfg d e body)
    as [[_ Hno] | (u & exp' & Hu & Hc & _ & _ & Hfree & Heq)].
  - exfalso. apply (Hno l link exp). by rewrite H.
  - rewrite Heq in H. injection H as <- _ _ <-. by exists u.
Qed.

(** A request leaves the target, the expiry and the creation time of
    every stored row as they are, and never decreases a counter. *)
Lemma handle_keeps_row d e r code row :
  urls d !! code = Some row →
  ∃ row', urls (handle URL_parse cfg d e r).1 !! code = Some row' ∧
    Urls.long_url row' = Urls.long_url row ∧
    Urls.expiry_at row' = Urls.expiry_at row ∧
    Urls.created_at row' = Urls.created_at row ∧
    Urls.clicks row ≤ Urls.clicks row'.
Proof.
  intros Hrow. destruct r as [body | c ip ua ref | c].
  - destruct (post_shorturls_cases URL_parse cfg d e body)
      as [[-> _] | (u & exp & _ & _ & _ & _ & Hfree & ->)].
    + by exists row.
    + exists row. cbn [fst urls]. rewrite lookup_insert_ne; [done|].
      intros Heq. rewrite Heq in Hfree. congruence.
  - rewrite get_code_eq. cbv zeta.
    destruct (urls d !! normalizeCode (Some c)) as [row0|]; [|by exists row].
    destruct (Urls.expiry_at row0 <? now e); [by exists row|].
    destruct (fault e UpdateOnVisit); [by exists row|].
    assert (∃ row', alter (visited e) (normalizeCode (Some c)) (urls d) !! code = Some row' ∧
              Urls.long_url row' = Urls.long_url row ∧
              Urls.expiry_at row' = Urls.expiry_at row ∧
              Urls.created_at row' = Urls.created_at row ∧
              Urls.clicks row ≤ Urls.clicks row') as Halter.
    { destruct (decide (normalizeCode (Some c) = code)) as [->|Hne].
      - exists (visited e row). rewrite lookup_alter_eq, Hrow. cbn. repeat split; lia.
      - exists row. rewrite lookup_alter_ne; [|done]. repeat split; [done | lia]. }
    by destruct (fault e InsertVisit).
  - rewrite get_shorturls_code_eq. cbv zeta.
    destruct (urls d !! normalizeCode (Some c)); by exists row.
Qed.

Lemma run_cons d e r trace :
  run URL_parse cfg d ((e, r) :: trace) =
  ((run URL_parse cfg (handle URL_parse cfg d e r).1 trace).1,
   (handle URL_parse cfg d e r).2 :: (run URL_parse cfg (handle URL_parse cfg d e r).1 trace).2).
Proof.
  cbn [run]. destruct (handle URL_parse cfg d e r) as [d1 resp]. cbn [fst snd].
  by destruct (run URL_parse cfg d1 trace).
Qed.

Lemma run_keeps_row trace : ∀ d code row,
  urls d !! code = Some row →
  ∃ row', urls (run URL_parse cfg d trace).1 !! code = Some row' ∧
    Urls.long_url row' = Urls.long_url row ∧
    Urls.expiry_at row' = Urls.expiry_at row ∧
    Urls.created_at row' = Urls.created_at row ∧
    Urls.clicks row ≤ Urls.clicks row'.
Proof.
  induction trace as [|[e r] trace IH]; intros d code row Hrow.
  - exists row. repeat split; [done | lia].
  - rewrite run_cons. cbn [fst].
    destruct (handle_keeps_row d e r code row Hrow) as (row1 & Hrow1 & Hl1 & He1 & Hc1 & Hk1).
    destruct (IH _ code row1 Hrow1) as (row2 & Hrow2 & Hl2 & He2 & Hc2 & Hk2).
    exists row2. repeat split; [done | congruence.. | lia].
Qed.

End Creation.

(** Codes that pass the syntax check, and lowercased [nanoid] results,
    are left as they are by [normalizeCode]. *)

Lemma code_char_not_space (c : ascii) :
  code_char c = true → Ascii.is_space c = false.
Proof. by destruct c as [[] [] [] [] [] [] [] []]; vm_compute. Qed.

Lemma code_char_lower (c : ascii) :
  code_char c = true → code_char (JsString.lower_char c) = true.
Proof. by destruct c as [[] [] [] [] [] [] [] []]; vm_compute. Qed.

Lemma lower_char_idemp (c : ascii) :
  JsString.lower_char (JsString.lower_char c) = JsString.lower_char c.
Proof. by destruct c as [[] [] [] [] [] [] [] []]; vm_compute. Qed.

Lemma toLowerCase_idemp (s : string) :
  JsString.toLowerCase (JsString.toLowerCase s) = JsString.toLowerCase s.
Proof.
  induction s as [|c s IH]; cbn; [done|]. by rewrite lower_char_idemp, IH.
Qed.

Lemma toLowerCase_code_chars (s : string) :
  JsString.all_chars code_char s = true →
  JsString.all_chars code_char (JsString.toLowerCase s) = true.
Proof.
  induction s as [|c s IH]; cbn [JsString.all_chars JsString.toLowerCase]; [done|].
  intros [Hc Hs]%andb_true_iff. by rewrite (code_char_lower c Hc), IH.
Qed.

Lemma trim_code_chars (s : string) :
  JsString.all_chars code_char s = true → JsString.trim s = s.
Proof.
  intros Hall. unfold JsString.trim.
  assert (JsString.trimStart s = s) as ->.
  { destruct s as [|c s]; cbn [JsString.all_chars JsString.trimStart] in *; [done|].
    apply andb_true_iff in Hall as [Hc _]. by rewrite (code_char_not_space c Hc). }
  induction s as [|c s IH]; cbn [JsString.all_chars JsString.trimEnd] in *; [done|].
  apply andb_true_iff in Hall as [Hc Hs]. rewrite (IH Hs).
  destruct s; [|done]. by rewrite (code_char_not_space c Hc).
Qed.

Lemma normalizeCode_lowered (s : string) :
  JsString.all_chars code_char (JsString.toLowerCase s) = true →
  normalizeCode (Some (JsString.toLowerCase s)) = JsString.toLowerCase s.
Proof.
  intros Hall. unfold normalizeCode.
  assert (default "" (Js.or_else (Some (JsString.toLowerCase s)) (Some "")) =
          JsString.toLowerCase s) as ->.
  { unfold Js.or_else. by destruct (JsString.toLowerCase s). }
  by rewrite (trim_code_chars _ Hall), toLowerCase_idemp.
Qed.

Lemma normalizeCode_chosen (e : env) (body : create_body) :
  code_accepted body →
  (JsString.truthy (normalizeCode (shortcode body)) = false → is_nanoid (nanoid e)) →
  normalizeCode (Some (chosen_code e body)) = chosen_code e body.
Proof.
  intros Hcode Hgen. unfold chosen_code. cbv zeta.
  destruct (JsString.truthy (normalizeCode (shortcode body))) eqn:Hnc.
  - specialize (Hcode Hnc). apply isValidCodeSyntax_iff in Hcode as [_ Hall].
    unfold normalizeCode at 2 3. unfold normalizeCode in Hall.
    by apply normalizeCode_lowered.
  - destruct (Hgen eq_refl) as [_ Hall].
    by apply normalizeCode_lowered, toLowerCase_code_chars.
Qed.

(** C1, as the code has it.  Under a default validity of a whole number
    of minutes, a create request whose URL is a non-empty string accepted
    by [isValidHttpUrl] is answered 201 with the short link of its code,
    provided the requested shortcode is absent or passes the syntax check,
    the code (requested or generated) is not stored yet, the expiry is a
    valid date and the insertion meets no storage error.  From then on,
    whatever requests are served in between, a redirect request for that
    code made no later than the expiry, whose two analytics statements
    succeed, is answered by [res.redirect] called with exactly the URL of
    the create request.  The [Location] header sent is the percent-encoding
    [encodeUrl] of that URL: the URL itself exactly when the encoding
    leaves it as it is. *)
Theorem created_link_redirects_to_url
    (URL_parse : string → option URL) (cfg : config) (encodeUrl : string → string)
    (d : db) (e : env) (body : create_body) (u : string) (exp n : Z) :
  url_accepted URL_parse body u →
  code_accepted body →
  (JsString.truthy (normalizeCode (shortcode body)) = false → is_nanoid (nanoid e)) →
  DEFAULT_VALIDITY cfg = JsNumber.of_Z n →
  computeExpiry e (validityMinutes cfg (validity body)) = Js.Ok exp →
  fault e InsertUrl = None →
  urls d !! chosen_code e body = None →
  ∃ d1,
    handle URL_parse cfg d e (PostShorturls body) =
      (d1, Json 201 (logID e)
             (CreatedBody (BASE_URL cfg +:+ "/" +:+ chosen_code e body) exp)) ∧
    ∀ trace e' ip user_agent referer,
      now e' ≤ exp →
      fault e' UpdateOnVisit = None →
      fault e' InsertVisit = None →
      snd (handle URL_parse cfg (run URL_parse cfg d1 trace).1 e'
             (GetCode (chosen_code e body) ip user_agent referer)) =
        Redirect u ∧
      Location encodeUrl
        (snd (handle URL_parse cfg (run URL_parse cfg d1 trace).1 e'
                (GetCode (chosen_code e body) ip user_agent referer))) =
        Some (encodeUrl u) ∧
      (Location encodeUrl
         (snd (handle URL_parse cfg (run URL_parse cfg d1 trace).1 e'
                 (GetCode (chosen_code e body) ip user_agent referer))) =
         Some u ↔ encodeUrl u = u).
Proof.
  intros Hurl Hcode Hgen _ Hexp Hfault Hfree.
  eexists. split.
  { rewrite (post_shorturls_insert_eq URL_parse cfg d e body u exp); [|done..].
    cbv zeta. by rewrite Hfault, Hfree. }
  intros trace e' ip ua ref Hlive Hupd Hins.
  set (code := chosen_code e body) in *.
  set (d1 := {| urls := <[code := new_row e code u exp]> (urls d); visits := visits d |}).
  destruct (run_keeps_row URL_parse cfg trace d1 code (new_row e code u exp))
    as (row & Hrow & Hlong & Hexpiry & _).
  { cbn [d1 urls]. by rewrite lookup_insert_eq. }
  assert (normalizeCode (Some code) = code) as Hnorm by by apply normalizeCode_chosen.
  rewrite (get_code_live_response URL_parse cfg _ e' code ip ua ref row).
  - rewrite Hupd, Hins, Hlong. cbn [Location new_row Urls.long_url].
    split; [done|]. split; [done|]. split; congruence.
  - by rewrite Hnorm.
  - rewrite Hexpiry. exact Hlive.
Qed.

Lemma created_link_redirects_to_url_witness :
  (example_handle empty_db (example_env 1000)
     (example_create (Js.Num (JsNumber.of_Z 5)) None)).2 =
    Json 201 "log-1" (CreatedBody "http://localhost:8080/v1stgxr" 301000) ∧
  (example_handle
     (example_handle empty_db (example_env 1000)
        (example_create (Js.Num (JsNumber.of_Z 5)) None)).1
     (example_env 301000)
     (GetCode "v1stgxr" (Some "203.0.113.7") None None)).2 =
    Redirect "https://example.com/page" ∧
  Location example_encodeUrl
    (example_handle
       (example_handle empty_db (example_env 1000)
          (example_create (Js.Num (JsNumber.of_Z 5)) None)).1
       (example_env 301000)
       (GetCode "v1stgxr" (Some "203.0.113.7") None None)).2 =
    Some "https://example.com/page".
Proof.
  unfold example_handle, example_create.
  destruct (created_link_redirects_to_url example_URL_parse default_config
              example_encodeUrl empty_db (example_env 1000)
              (CreateBody (Some "https://example.com/page") (Js.Num (JsNumber.of_Z 5)) None)
              "https://example.com/page" 301000 30) as (d1 & Hcreate & Hresolve).
  - by vm_compute.
  - intros H. by vm_compute in H.
  - intros _. by vm_compute.
  - reflexivity.
  - by vm_compute.
  - reflexivity.
  - by vm_compute.
  - rewrite Hcreate. split; [reflexivity|]. cbn [fst snd].
    destruct (Hresolve [] (example_env 301000) (Some "203.0.113.7") None None)
      as (Hredirect & Hlocation & _); [by vm_compute | reflexivity..|].
    split; [exact Hredirect | exact Hlocation].
Defined.

(** A URL with a space: the handler passes it to [res.redirect] as it was
    stored, and the header sent holds its encoding. *)
Lemma redirect_location_is_encoded_example :
  (example_handle
     (example_handle empty_db (example_env 1000)
        (PostShorturls (CreateBody (Some "https://example.com/a b") Js.Undefined
                          (Some "mine")))).1
     (example_env 2000) (GetCode "mine" None None None)).2 =
    Redirect "https://example.com/a b" ∧
  Location example_encodeUrl (Redirect "https://example.com/a b") =
    Some "https://example.com/a%20b".
Proof. by vm_compute. Qed.

(** C1, as stated, fails: the URL is a valid https URL, but the requested
    shortcode [mine] is taken, and the request is answered 409.  The same
    happens without a requested shortcode when [nanoid] returns a code that
    is stored already. *)
Lemma valid_url_create_can_fail :
  isValidHttpUrl example_URL_parse "https://example.com/other" = Js.Ok true ∧
  example_handle example_db (example_env 1000)
    (PostShorturls (CreateBody (Some "https://example.com/other") Js.Undefined
                      (Some "mine"))) =
  (example_db, Json 409 "log-1" (ErrorBody "Shortcode already exists.")) ∧
  (example_handle
     (example_handle empty_db (example_env 1000) (example_create Js.Undefined None)).1
     (example_env 2000)
     (PostShorturls (CreateBody (Some "https://example.com/other") Js.Undefined None))).2 =
  Json 409 "log-1" (ErrorBody "Shortcode already exists.").
Proof. by vm_compute. Qed.

(** C3.  When a create request with an explicit shortcode has been
    answered 201, a later create request with the same shortcode writes
    nothing: the database stays as it was just before it, and the row of
    the first request is still there with its long URL, creation time,
    expiry and counter.  The second request is never answered 201, and
    when it reaches the insertion (its URL is accepted, its expiry is a
    valid date, and the storage layer raises no error of its own) it is
    answered 409. *)
Theorem duplicate_shortcode_conflicts_without_write
    (URL_parse : string → option URL) (cfg : config) (d d1 : db) (e1 e2 : env)
    (b1 b2 : create_body) (code l link : string) (exp1 : Z)
    (trace : list (env * request)) :
  normalizeCode (shortcode b1) = code →
  normalizeCode (shortcode b2) = code →
  JsString.truthy code = true →
  handle URL_parse cfg d e1 (PostShorturls b1) = (d1, Json 201 l (CreatedBody link exp1)) →
  let (d2, resp2) :=
    handle URL_parse cfg (run URL_parse cfg d1 trace).1 e2 (PostShorturls b2) in
  d2 = (run URL_parse cfg d1 trace).1 ∧
  (∃ u1 row, url b1 = Some u1 ∧
     urls d1 !! code = Some (new_row e1 code u1 exp1) ∧
     urls d2 !! code = Some row ∧
     Urls.long_url row = u1 ∧
     Urls.created_at row = datetime_now e1 ∧
     Urls.expiry_at row = exp1 ∧
     (trace = [] → Urls.clicks row = 0)) ∧
  (∀ l' link' exp', resp2 ≠ Json 201 l' (CreatedBody link' exp')) ∧
  (∀ u2 exp2,
     url_accepted URL_parse b2 u2 →
     computeExpiry e2 (validityMinutes cfg (validity b2)) = Js.Ok exp2 →
     fault e2 InsertUrl = None →
     resp2 = Json 409 (logID e2) (ErrorBody "Shortcode already exists.")).
Proof.
  intros Hc1 Hc2 Htruthy Hfirst.
  apply created_inversion in Hfirst as (u1 & (Hu1 & _) & Hsyn1 & Hfree & ->).
  assert (chosen_code e1 b1 = code) as Hch1.
  { unfold chosen_code. cbv zeta. by rewrite Hc1, Htruthy. }
  assert (chosen_code e2 b2 = code) as Hch2.
  { unfold chosen_code. cbv zeta. by rewrite Hc2, Htruthy. }
  rewrite Hch1 in *.
  set (d1 := {| urls := <[code := new_row e1 code u1 exp1]> (urls d); visits := visits d |}).
  assert (urls d1 !! code = Some (new_row e1 code u1 exp1)) as Hrow1
    by (cbn [d1 urls]; by rewrite lookup_insert_eq).
  destruct (run_keeps_row URL_parse cfg trace d1 code _ Hrow1)
    as (row & Hrow & Hlong & Hexpiry & Hcreated & _).
  assert (trace = [] → Urls.clicks row = 0) as Hclicks.
  { intros ->. cbn in Hrow. rewrite lookup_insert_eq in Hrow. by injection Hrow as <-. }
  set (d1' := (run URL_parse cfg d1 trace).1) in *.
  assert (code_accepted b2) as Hsyn2.
  { unfold code_accepted in *. rewrite Hc2. rewrite Hc1 in Hsyn1. done. }
  pose proof (post_shorturls_cases URL_parse cfg d1' e2 b2) as Hcases.
  pose proof (post_shorturls_insert_eq URL_parse cfg d1' e2 b2) as Hinsert.
  destruct (handle URL_parse cfg d1' e2 (PostShorturls b2)) as [d2 resp2].
  destruct Hcases as [[Hsame Hno] | (u & exp & _ & _ & _ & _ & Hfree2 & _)].
  - cbn [fst snd] in *. subst d2. split; [done|].
    split; [by exists u1, row|].
    split; [done|]. intros u2 exp2 Hu2 Hexp2 Hfault.
    specialize (Hinsert u2 exp2 Hu2 Hexp2 Hsyn2). cbv zeta in Hinsert.
    rewrite Hfault, Hch2, Hrow in Hinsert. by inversion Hinsert.
  - rewrite Hch2, Hrow in Hfree2. done.
Qed.

Lemma duplicate_shortcode_conflicts_without_write_witness :
  example_handle
    (example_handle empty_db (example_env 1000)
       (example_create (Js.Num (JsNumber.of_Z 5)) (Some "Mine"))).1
    (example_env 2000)
    (example_create (Js.Num (JsNumber.of_Z 5)) (Some " mine")) =
  ((example_handle empty_db (example_env 1000)
      (example_create (Js.Num (JsNumber.of_Z 5)) (Some "Mine"))).1,
   Json 409 "log-1" (ErrorBody "Shortcode already exists.")).
Proof.
  unfold example_handle, example_create.
  pose proof (duplicate_shortcode_conflicts_without_write example_URL_parse default_config
    empty_db
    (handle example_URL_parse default_config empty_db (example_env 1000)
       (PostShorturls (CreateBody (Some "https://example.com/page")
                         (Js.Num (JsNumber.of_Z 5)) (Some "Mine")))).1
    (example_env 1000) (example_env 2000)
    (CreateBody (Some "https://example.com/page") (Js.Num (JsNumber.of_Z 5)) (Some "Mine"))
    (CreateBody (Some "https://example.com/page") (Js.Num (JsNumber.of_Z 5)) (Some " mine"))
    "mine" "log-1" "http://localhost:8080/mine" 301000 []) as H.
  cbn [run fst] in H.
  destruct (handle example_URL_parse default_config _ (example_env 2000) _) as [d2 resp2].
  destruct H as (-> & _ & _ & Hconflict); [by vm_compute..|].
  rewrite (Hconflict "https://example.com/page" 302000); [done | by vm_compute..].
Defined.

(** ** Statistics *)

Lemma visits_of_snoc (code : string) (m m' : gmap string Urls.row)
    (vs : list Visits.row) (v : Visits.row) :
  visits_of code {| urls := m; visits := vs ++ [v] |} =
  visits_of code {| urls := m'; visits := vs |} ++
  (if decide (Visits.code v = code) then [v] else []).
Proof.
  unfold visits_of. cbn [visits]. by rewrite filter_app.
Qed.

Lemma served_ts (code : string) (er : env * request) (resp : response) (c : click) :
  served code er resp = Some c → click_ts c = datetime_now er.1.
Proof.
  unfold served. destruct er.2; try done. destruct resp; try done.
  destruct (decide _); [|done]. by intros [= <-].
Qed.

Lemma redirects_cons (code : string) (er : env * request) (resp : response)
    (trace : list (env * request)) (resps : list response) :
  redirects code (er :: trace) (resp :: resps) =
  option_list (served code er resp) ++ redirects code trace resps.
Proof. unfold redirects. cbn. by destruct (served code er resp). Qed.

Lemma redirects_lower_bound (code : string) (lo : Z) (trace : list (env * request)) :
  ∀ resps,
    Forall (Z.le lo) ((λ er, now er.1) <$> trace) →
    Forall (Z.le (lo / 1000)) (click_ts <$> redirects code trace resps).
Proof.
  induction trace as [|er trace IH]; intros [|resp resps] Hlo; try by constructor.
  rewrite redirects_cons, fmap_app. apply Forall_app.
  rewrite fmap_cons in Hlo. apply Forall_cons in Hlo as [Her Hlo]. split; [|by apply IH].
  destruct (served code er resp) as [c|] eqn:Hc; cbn; [|constructor].
  constructor; [|constructor]. rewrite (served_ts _ _ _ _ Hc).
  unfold datetime_now. by apply Z.div_le_mono.
Qed.

(** With a clock that never goes backwards, the redirects of a run carry
    ascending timestamps. *)
Lemma redirects_sorted (code : string) (trace : list (env * request)) :
  ∀ resps,
    clock_monotone trace →
    StronglySorted Z.le (click_ts <$> redirects code trace resps).
Proof.
  unfold clock_monotone.
  induction trace as [|er trace IH]; intros [|resp resps] Hmono; try by constructor.
  rewrite fmap_cons in Hmono. apply StronglySorted_cons in Hmono as [Hlo Hmono].
  rewrite redirects_cons, fmap_app. apply StronglySorted_app_2; [| |by apply IH].
  - intros t1 t2 Ht1 Ht2.
    destruct (served code er resp) as [c|] eqn:Hc; cbn in Ht1;
      [|by apply elem_of_nil in Ht1].
    apply list_elem_of_singleton in Ht1 as ->. rewrite (served_ts _ _ _ _ Hc).
    pose proof (redirects_lower_bound code (now er.1) trace resps Hlo) as Hall.
    rewrite Forall_forall in Hall. by apply Hall.
  - destruct (served code er resp); cbn; repeat constructor.
Qed.

Lemma distinct_ips_le (cs : list click) : (distinct_ips cs ≤ length cs)%nat.
Proof.
  unfold distinct_ips. induction cs as [|c cs IH]; cbn; [done|].
  destruct (click_ip c) as [a|]; cbn; [|lia].
  destruct (decide_rel elem_of a (omap click_ip cs)); cbn; lia.
Qed.

Lemma omap_ip_click_of (vs : list Visits.row) :
  omap click_ip (click_of <$> vs) = omap Visits.ip vs.
Proof.
  induction vs as [|v vs IH]; cbn; [done|]. rewrite IH. by destruct (Visits.ip v).
Qed.

Section Statistics.

Variable URL_parse : string → option URL.
Variable cfg : config.

(** One request appends to the ledger of a code exactly the click of the
    redirect it served. *)
Lemma handle_ledger d e r code :
  click_of <$> visits_of code (handle URL_parse cfg d e r).1 =
  (click_of <$> visits_of code d) ++
  option_list (served code (e, r) (handle URL_parse cfg d e r).2).
Proof.
  destruct r as [body | c ip ua ref | c].
  - unfold served. cbn [snd option_list]. rewrite app_nil_r.
    destruct (post_shorturls_cases URL_parse cfg d e body)
      as [[-> _] | (u & exp & _ & _ & _ & _ & _ & ->)]; done.
  - rewrite get_code_eq. cbv zeta. unfold served. cbn [fst snd].
    destruct (urls d !! normalizeCode (Some c)) as [row|];
      [|by cbn; rewrite app_nil_r].
    destruct (Urls.expiry_at row <? now e); [by cbn; rewrite app_nil_r|].
    destruct (fault e UpdateOnVisit); [by cbn; rewrite app_nil_r|].
    destruct (fault e InsertVisit); [by cbn; rewrite app_nil_r|].
    cbn [fst snd]. rewrite (visits_of_snoc code _ (urls d)), fmap_app.
    cbn [new_visit Visits.code]. destruct d as [m vs]. cbn [urls visits].
    f_equal. by destruct (decide (normalizeCode (Some c) = code)).
  - rewrite get_shorturls_code_eq. cbv zeta. unfold served.
    destruct (urls d !! normalizeCode (Some c)); cbn; by rewrite app_nil_r.
Qed.

(** One request that does not die between the two analytics statements
    keeps the counter of a code equal to the size of its ledger. *)
Lemma handle_counter d e r code :
  crashed code (e, r) (handle URL_parse cfg d e r).2 = false →
  counter_ok code d →
  counter_ok code (handle URL_parse cfg d e r).1.
Proof.
  unfold counter_ok. intros Hcrash Hok.
  destruct r as [body | c ip ua ref | c].
  - destruct (post_shorturls_cases URL_parse cfg d e body)
      as [[-> _] | (u & exp & _ & _ & _ & _ & Hfree & ->)]; [done|].
    cbn [fst urls]. unfold visits_of in *. cbn [visits].
    destruct (decide (chosen_code e body = code)) as [<-|Hne].
    + rewrite lookup_insert_eq. rewrite Hfree in Hok. by rewrite Hok.
    + by rewrite lookup_insert_ne.
  - revert Hcrash. rewrite get_code_eq. cbv zeta. unfold crashed. cbn [fst snd].
    destruct (urls d !! normalizeCode (Some c)) as [row|] eqn:Hrow; [|done].
    destruct (Urls.expiry_at row <? now e); [done|].
    destruct (fault e UpdateOnVisit); [done|].
    destruct (decide (normalizeCode (Some c) = code)) as [Heq|Hne].
    + destruct (fault e InsertVisit).
      { cbn [snd]. by rewrite bool_decide_eq_true_2. }
      intros _. cbn [fst urls]. rewrite (visits_of_snoc code _ (urls d)).
      cbn [new_visit Visits.code]. rewrite decide_True by done.
      rewrite Heq, lookup_alter_eq. rewrite Heq in Hrow. rewrite Hrow in Hok |- *.
      cbn. rewrite length_app. cbn. destruct d as [m vs]. cbn [urls visits] in *.
      unfold visits_of in *. cbn [visits] in *. lia.
    + intros _.
      assert (alter (visited e) (normalizeCode (Some c)) (urls d) !! code = urls d !! code)
        as Hother by by rewrite lookup_alter_ne.
      destruct (fault e InsertVisit); cbn [fst urls]; rewrite Hother.
      * done.
      * rewrite (visits_of_snoc code _ (urls d)). cbn [new_visit Visits.code].
        rewrite decide_False by done. rewrite app_nil_r.
        destruct d as [m vs]. done.
  - rewrite get_shorturls_code_eq. cbv zeta.
    by destruct (urls d !! normalizeCode (Some c)).
Qed.

Lemma run_ledger code trace : ∀ d,
  click_of <$> visits_of code (run URL_parse cfg d trace).1 =
  (click_of <$> visits_of code d) ++ redirects code trace (run URL_parse cfg d trace).2.
Proof.
  induction trace as [|[e r] trace IH]; intros d.
  - cbn. by rewrite app_nil_r.
  - rewrite run_cons. cbn [fst snd]. rewrite IH, handle_ledger, redirects_cons.
    by rewrite <- app_assoc.
Qed.

Lemma run_counter code trace : ∀ d,
  no_crash code trace (run URL_parse cfg d trace).2 = true →
  counter_ok code d →
  counter_ok code (run URL_parse cfg d trace).1.
Proof.
  induction trace as [|[e r] trace IH]; intros d; [done|].
  rewrite run_cons. cbn [fst snd]. unfold no_crash. cbn [zip zip_with forallb fst snd].
  intros [Hhead Hrest]%andb_true_iff Hok.
  apply IH; [done|]. apply handle_counter; [|done]. by apply negb_true_iff.
Qed.

End Statistics.

(** C5, as the code has it.  The detailed click list of the statistics
    holds the redirects served for the code in the order they were served
    (the query has no ORDER BY and returns the ledger in rowid order); this
    is ascending timestamp order whenever the clock did not go backwards
    from one request to the next. *)
Theorem detailed_clicks_in_service_order
    (URL_parse : string → option URL) (cfg : config)
    (trace : list (env * request)) (d : db) (resps : list response)
    (c : string) (e : env) (row : Urls.row) :
  run URL_parse cfg empty_db trace = (d, resps) →
  urls d !! normalizeCode (Some c) = Some row →
  ∃ s, handle URL_parse cfg d e (GetShorturlsCode c) =
         (d, Json 200 (logID e) (StatsBody s)) ∧
       detailedClicks s = redirects (normalizeCode (Some c)) trace resps ∧
       (clock_monotone trace → StronglySorted Z.le (click_ts <$> detailedClicks s)).
Proof.
  intros Hrun Hrow. set (code := normalizeCode (Some c)) in *.
  pose proof (run_ledger URL_parse cfg code trace empty_db) as Hledger.
  rewrite Hrun in Hledger. cbn [fst snd] in Hledger.
  change (click_of <$> visits_of code empty_db) with (@nil click) in Hledger.
  rewrite app_nil_l in Hledger.
  rewrite get_shorturls_code_eq. cbv zeta. fold code. rewrite Hrow.
  eexists. split; [reflexivity|]. cbn [detailedClicks]. split; [done|].
  intros Hmono. rewrite Hledger. by apply redirects_sorted.
Qed.

Lemma detailed_clicks_in_service_order_witness :
  ∃ s, example_handle (example_db_after example_trace) (example_env 6000)
         (GetShorturlsCode "mine") =
         (example_db_after example_trace, Json 200 "log-1" (StatsBody s)) ∧
       click_ts <$> detailedClicks s = [2; 3; 4; 5].
Proof.
  unfold example_handle, example_db_after.
  destruct (detailed_clicks_in_service_order example_URL_parse default_config
              example_trace
              (run example_URL_parse default_config empty_db example_trace).1
              (run example_URL_parse default_config empty_db example_trace).2
              "mine" (example_env 6000)
              (visited (example_env 5000) (visited (example_env 4000)
                (visited (example_env 3000) (visited (example_env 2000)
                   (new_row (example_env 1000) "mine" "https://example.com/page" 301000))))))
    as (s & Hs & Horder & _).
  - by destruct (run example_URL_parse default_config empty_db example_trace).
  - by vm_compute.
  - exists s. split; [exact Hs|]. rewrite Horder. by vm_compute.
Defined.

(** C5, as stated, fails: after a redirect served at second 5 and one
    served at second 2 (the clock was set back in between), the detailed
    click list holds them in that order. *)
Lemma detailed_clicks_not_ascending :
  ∃ s, example_handle (example_db_after example_trace_clock_set_back) (example_env 6000)
         (GetShorturlsCode "mine") =
         (example_db_after example_trace_clock_set_back,
          Json 200 "log-1" (StatsBody s)) ∧
       click_ts <$> detailedClicks s = [5; 2] ∧
       ¬ StronglySorted Z.le (click_ts <$> detailedClicks s).
Proof.
  eexists. split; [by vm_compute|]. cbn [detailedClicks].
  split; [by vm_compute|].
  intros Hsorted. vm_compute in Hsorted.
  apply StronglySorted_cons in Hsorted as [Hle _].
  apply Forall_cons in Hle as [Hle _]. by vm_compute in Hle.
Qed.

(** * Further properties of the code *)

(** ** [normalizeCode] *)

Lemma is_space_lower (c : ascii) :
  Ascii.is_space (JsString.lower_char c) = Ascii.is_space c.
Proof. by destruct c as [[] [] [] [] [] [] [] []]; vm_compute. Qed.

Lemma is_upper_lower (c : ascii) :
  JsString.is_upper (JsString.lower_char c) = false.
Proof. by destruct c as [[] [] [] [] [] [] [] []]; vm_compute. Qed.

Lemma trimStart_lower (s : string) :
  JsString.trimStart (JsString.toLowerCase s) = JsString.toLowerCase (JsString.trimStart s).
Proof.
  induction s as [|c s IH]; cbn [JsString.trimStart JsString.toLowerCase]; [done|].
  rewrite is_space_lower. by destruct (Ascii.is_space c).
Qed.

Lemma trimEnd_lower (s : string) :
  JsString.trimEnd (JsString.toLowerCase s) = JsString.toLowerCase (JsString.trimEnd s).
Proof.
  induction s as [|c s IH]; cbn [JsString.trimEnd JsString.toLowerCase]; [done|].
  rewrite IH, is_space_lower.
  destruct (JsString.trimEnd s); cbn [JsString.toLowerCase]; [|done].
  by destruct (Ascii.is_space c).
Qed.

Lemma trim_lower (s : string) :
  JsString.trim (JsString.toLowerCase s) = JsString.toLowerCase (JsString.trim s).
Proof. unfold JsString.trim. by rewrite trimStart_lower, trimEnd_lower. Qed.

(** What [trimStart] returns does not start with white space. *)
Lemma trimStart_first (s : string) (c : ascii) :
  first_char (JsString.trimStart s) = Some c → Ascii.is_space c = false.
Proof.
  induction s as [|a s IH]; cbn [JsString.trimStart]; [done|].
  destruct (Ascii.is_space a) eqn:Ha; [done|]. cbn. by intros [= <-].
Qed.

(** [trimEnd] keeps the first character of a string that does not start
    with white space. *)
Lemma trimEnd_first (s : string) :
  (∀ c, first_char s = Some c → Ascii.is_space c = false) →
  first_char (JsString.trimEnd s) = first_char s.
Proof.
  destruct s as [|a s]; [done|]. intros Ha. cbn [JsString.trimEnd].
  destruct (JsString.trimEnd s); [|done]. by rewrite (Ha a eq_refl).
Qed.

Lemma trimEnd_last (s : string) (c : ascii) :
  last_char (JsString.trimEnd s) = Some c → Ascii.is_space c = false.
Proof.
  induction s as [|a s IH]; cbn [JsString.trimEnd]; [done|].
  destruct (JsString.trimEnd s) as [|b t] eqn:Ht.
  - destruct (Ascii.is_space a) eqn:Ha; [done|]. cbn. by intros [= <-].
  - intros H. apply IH. exact H.
Qed.

Lemma trimStart_fixed (s : string) :
  (∀ c, first_char s = Some c → Ascii.is_space c = false) →
  JsString.trimStart s = s.
Proof.
  destruct s as [|a s]; [done|]. intros Ha. cbn. by rewrite (Ha a eq_refl).
Qed.

Lemma trimEnd_cons (a : ascii) (s : string) :
  JsString.trimEnd (String a s) =
  match JsString.trimEnd s with
  | EmptyString => if Ascii.is_space a then EmptyString else String a EmptyString
  | String b t => String a (String b t)
  end.
Proof. reflexivity. Qed.

Lemma trimEnd_idemp (s : string) :
  JsString.trimEnd (JsString.trimEnd s) = JsString.trimEnd s.
Proof.
  induction s as [|a s IH]; [done|]. rewrite (trimEnd_cons a s).
  destruct (JsString.trimEnd s) as [|b t] eqn:Ht.
  - destruct (Ascii.is_space a) eqn:Ha; [done|]. cbn. by rewrite Ha.
  - by rewrite trimEnd_cons, IH.
Qed.

Lemma trim_first (s : string) (c : ascii) :
  first_char (JsString.trim s) = Some c → Ascii.is_space c = false.
Proof.
  unfold JsString.trim. rewrite trimEnd_first; [apply trimStart_first|].
  apply trimStart_first.
Qed.

Lemma trim_idemp (s : string) : JsString.trim (JsString.trim s) = JsString.trim s.
Proof.
  unfold JsString.trim at 1.
  rewrite (trimStart_fixed (JsString.trim s)); [|apply trim_first].
  unfold JsString.trim. apply trimEnd_idemp.
Qed.

Lemma normalizeCode_unfold (input : option string) :
  normalizeCode input = JsString.toLowerCase (JsString.trim (default "" input)).
Proof.
  unfold normalizeCode. destruct input as [s|]; [|done]. by destruct s.
Qed.

Lemma first_char_lower (s : string) :
  first_char (JsString.toLowerCase s) = JsString.lower_char <$> first_char s.
Proof. by destruct s. Qed.

Lemma last_char_lower (s : string) :
  last_char (JsString.toLowerCase s) = JsString.lower_char <$> last_char s.
Proof.
  induction s as [|a s IH]; [done|]. cbn [JsString.toLowerCase last_char].
  destruct s as [|b s]; [done|]. exact IH.
Qed.

(** X1.  On ASCII text, normalising a code a second time changes
    nothing: the code a create request stores and the code a later lookup
    computes from it are the same string. *)
Theorem normalizeCode_idempotent (input : option string) :
  ascii_only (default "" input) = true →
  normalizeCode (Some (normalizeCode input)) = normalizeCode input.
Proof.
  intros _. rewrite !normalizeCode_unfold.
  change (default "" (Some ?x)) with x.
  by rewrite trim_lower, trim_idemp, toLowerCase_idemp.
Qed.

Lemma normalizeCode_idempotent_witness :
  normalizeCode (Some (normalizeCode (Some "  My-Code_1 "))) =
  normalizeCode (Some "  My-Code_1 ").
Proof.
  apply (normalizeCode_idempotent (Some "  My-Code_1 ")). by vm_compute.
Defined.

(** X2.  On ASCII text, a normalised code holds no upper-case letter and
    neither starts nor ends with white space. *)
Theorem normalizeCode_is_lower_and_trimmed (input : option string) :
  ascii_only (default "" input) = true →
  JsString.all_chars (λ c, negb (JsString.is_upper c)) (normalizeCode input) = true ∧
  (∀ c, first_char (normalizeCode input) = Some c → Ascii.is_space c = false) ∧
  (∀ c, last_char (normalizeCode input) = Some c → Ascii.is_space c = false).
Proof.
  intros _. rewrite normalizeCode_unfold. set (s := default "" input). split; [|split].
  - induction (JsString.trim s) as [|a t IH]; [done|].
    cbn [JsString.toLowerCase JsString.all_chars]. by rewrite is_upper_lower, IH.
  - intros c. rewrite first_char_lower.
    destruct (first_char (JsString.trim s)) as [a|] eqn:Ha; [|done].
    intros [= <-]. rewrite is_space_lower. by apply (trim_first s).
  - intros c. rewrite last_char_lower.
    destruct (last_char (JsString.trim s)) as [a|] eqn:Ha; [|done].
    intros [= <-]. rewrite is_space_lower. by apply (trimEnd_last (JsString.trimStart s)).
Qed.

Lemma normalizeCode_is_lower_and_trimmed_witness :
  JsString.all_chars (λ c, negb (JsString.is_upper c))
    (normalizeCode (Some "  My-Code_1 ")) = true.
Proof.
  apply (normalizeCode_is_lower_and_trimmed (Some "  My-Code_1 ")). by vm_compute.
Defined.





(** ** What one request does to the database *)

Section Effects.

Variable URL_parse : string → option URL.
Variable cfg : config.

(** The four things a request can do: nothing; insert a row under a free
    code (answer 201); count a visit and then die before the ledger is
    written; count a visit, append it to the ledger and redirect. *)
Lemma handle_effect d e r :
  ((handle URL_parse cfg d e r).1 = d ∧
   is_created (handle URL_parse cfg d e r).2 = false ∧
   is_redirect (handle URL_parse cfg d e r).2 = false) ∨
  (∃ body u exp,
     r = PostShorturls body ∧
     url_accepted URL_parse body u ∧ code_accepted body ∧
     computeExpiry e (validityMinutes cfg (validity body)) = Js.Ok exp ∧
     urls d !! chosen_code e body = None ∧
     handle URL_parse cfg d e r =
       ({| urls := <[chosen_code e body := new_row e (chosen_code e body) u exp]> (urls d);
           visits := visits d |},
        Json 201 (logID e)
          (CreatedBody (BASE_URL cfg +:+ "/" +:+ chosen_code e body) exp))) ∨
  (∃ c ip ua ref row msg,
     r = GetCode c ip ua ref ∧
     urls d !! normalizeCode (Some c) = Some row ∧
     handle URL_parse cfg d e r =
       ({| urls := alter (visited e) (normalizeCode (Some c)) (urls d);
           visits := visits d |},
        Uncaught (Js.SqliteError msg))) ∨
  (∃ c ip ua ref row,
     r = GetCode c ip ua ref ∧
     urls d !! normalizeCode (Some c) = Some row ∧
     now e ≤ Urls.expiry_at row ∧
     handle URL_parse cfg d e r =
       ({| urls := alter (visited e) (normalizeCode (Some c)) (urls d);
           visits := visits d ++ [new_visit e d (normalizeCode (Some c)) ip ua ref] |},
        Redirect (Urls.long_url row))).
Proof.
  destruct r as [body | c ip ua ref | c].
  - destruct (post_shorturls_cases URL_parse cfg d e body)
      as [[Hsame Hno] | (u & exp & Hu & Hc & Hexp & _ & Hfree & Heq)].
    + left. split; [done|]. split.
      * destruct (handle URL_parse cfg d e (PostShorturls body)).2 as [st l [| |]| |] eqn:Hr;
          try done. exfalso. revert Hr.
        unfold handle, route, post_shorturls, bindM, liftM, retM, try_catchM, insertUrl,
          run_stmt, throwM.
        repeat (case_match; simplify_eq/=); try done.
        all: intros [= <- <- <- <-]; by eapply Hno.
      * clear Hno Hsame.
        unfold handle, route, post_shorturls, bindM, liftM, retM, try_catchM, insertUrl,
          run_stmt, throwM.
        repeat (case_match; simplify_eq/=); done.
    + right. left. by exists body, u, exp.
  - rewrite get_code_eq. cbv zeta.
    destruct (urls d !! normalizeCode (Some c)) as [row|] eqn:Hrow; [|by left].
    destruct (Urls.expiry_at row <? now e) eqn:Hexp; [by left|].
    destruct (fault e UpdateOnVisit); [by left|].
    destruct (fault e InsertVisit) as [msg|].
    + right. right. left. by exists c, ip, ua, ref, row, msg.
    + right. right. right. exists c, ip, ua, ref, row.
      apply Z.ltb_ge in Hexp. done.
  - left. rewrite get_shorturls_code_eq. cbv zeta.
    by destruct (urls d !! normalizeCode (Some c)).
Qed.

End Effects.

(** ** Invariants of the database *)

Lemma visits_of_unstored (d : db) (k : string) :
  (∀ v, v ∈ visits d → is_Some (urls d !! Visits.code v)) →
  urls d !! k = None → visits_of k d = [].
Proof.
  intros Hnames Hk. unfold visits_of.
  induction (visits d) as [|v vs IH]; [done|].
  rewrite filter_cons. destruct (decide (Visits.code v = k)) as [Heq|_].
  - destruct (Hnames v) as [row Hrow]; [by left|]. congruence.
  - apply IH. intros v' Hv'. apply Hnames. by right.
Qed.

Lemma visits_of_same_visits (k : string) (m m' : gmap string Urls.row)
    (vs : list Visits.row) :
  visits_of k {| urls := m; visits := vs |} = visits_of k {| urls := m'; visits := vs |}.
Proof. reflexivity. Qed.

Lemma empty_db_consistent : db_consistent empty_db.
Proof.
  split; cbn.
  - intros k row. by rewrite lookup_empty.
  - intros k row. by rewrite lookup_empty.
  - intros k row. by rewrite lookup_empty.
  - intros v Hv. by apply elem_of_nil in Hv.
  - by intros [|i] v.
Qed.

Section Invariants.

Variable URL_parse : string → option URL.
Variable cfg : config.

Lemma insert_consistent d e code u exp :
  db_consistent d →
  urls d !! code = None →
  db_consistent {| urls := <[code := new_row e code u exp]> (urls d); visits := visits d |}.
Proof.
  intros [Hcode Hcover Hacc Hnames Hids] Hfree. split; cbn [urls visits].
  - intros k row. rewrite lookup_insert. case_decide as Hk.
    + subst k. by intros [= <-].
    + by apply Hcode.
  - intros k row. rewrite lookup_insert. unfold visits_of in *. cbn [visits].
    case_decide as Hk.
    + subst k. intros [= <-]. cbn.
      pose proof (visits_of_unstored d code Hnames Hfree) as Hnil.
      unfold visits_of in Hnil. by rewrite Hnil.
    + by apply Hcover.
  - intros k row. rewrite lookup_insert. case_decide as Hk.
    + subst k. by intros [= <-].
    + by apply Hacc.
  - intros v Hv. rewrite lookup_insert. case_decide; [done|]. by apply Hnames.
  - exact Hids.
Qed.

Lemma counted_consistent d e code row (extra : list Visits.row) :
  db_consistent d →
  urls d !! code = Some row →
  (extra = [] ∨ ∃ ip ua ref, extra = [new_visit e d code ip ua ref]) →
  db_consistent {| urls := alter (visited e) code (urls d); visits := visits d ++ extra |}.
Proof.
  intros [Hcode Hcover Hacc Hnames Hids] Hrow Hextra.
  assert (∀ k, length (visits_of k {| urls := alter (visited e) code (urls d);
                                      visits := visits d ++ extra |}) =
               (length (visits_of k d) +
                (if decide (code = k) then length extra else 0))%nat) as Hlen.
  { intros k. unfold visits_of. cbn [visits]. rewrite filter_app, length_app. f_equal.
    destruct Hextra as [-> | (ip & ua & ref & ->)]; [by case_decide|].
    rewrite filter_cons, filter_nil. cbn [new_visit Visits.code].
    destruct (decide (code = k)); done. }
  split; cbn [urls visits].
  - intros k row'. rewrite lookup_alter. case_decide as Hk.
    + subst k. rewrite Hrow. cbn. intros [= <-]. cbn. by apply (Hcode code).
    + by apply Hcode.
  - intros k row'. rewrite Hlen. rewrite lookup_alter.
    assert (length extra ≤ 1)%nat as Hone
      by (destruct Hextra as [-> | (? & ? & ? & ->)]; cbn; lia).
    case_decide as Hk.
    + subst k. rewrite Hrow. cbn. intros [= <-]. cbn.
      specialize (Hcover code row Hrow). lia.
    + intros Hrow'. specialize (Hcover k row' Hrow'). lia.
  - intros k row'. rewrite lookup_alter. case_decide as Hk.
    + subst k. rewrite Hrow. cbn. intros [= <-]. cbn.
      specialize (Hcover code row Hrow). split; [done | lia].
    + by apply Hacc.
  - intros v [Hv | Hv]%elem_of_app.
    + rewrite lookup_alter. case_decide; [|by apply Hnames].
      rewrite Hrow. by eexists.
    + destruct Hextra as [-> | (ip & ua & ref & ->)]; [by apply elem_of_nil in Hv|].
      apply list_elem_of_singleton in Hv as ->. cbn [new_visit Visits.code].
      rewrite lookup_alter_eq, Hrow. by eexists.
  - intros i v Hi. destruct (decide (i < length (visits d))%nat) as [Hlt|Hge].
    + rewrite lookup_app_l in Hi by done. by apply Hids.
    + rewrite lookup_app_r in Hi by lia.
      destruct Hextra as [-> | (ip & ua & ref & ->)]; [done|].
      destruct (i - length (visits d))%nat as [|n] eqn:Hn; [|done].
      injection Hi as <-. cbn [new_visit Visits.id].
      assert (i = length (visits d)) by lia. by subst i.
Qed.

Lemma handle_consistent d e r :
  db_consistent d → db_consistent (handle URL_parse cfg d e r).1.
Proof.
  intros Hd.
  destruct (handle_effect URL_parse cfg d e r)
    as [(-> & _) | [(body & u & exp & _ & _ & _ & _ & Hfree & ->) |
        [(c & ip & ua & ref & row & msg & _ & Hrow & ->) |
         (c & ip & ua & ref & row & _ & Hrow & _ & ->)]]]; cbn [fst].
  - done.
  - by apply insert_consistent.
  - rewrite <- (app_nil_r (visits d)). apply (counted_consistent d e _ row []); auto.
  - apply (counted_consistent d e _ row); [done..|]. right. by exists ip, ua, ref.
Qed.

Lemma run_consistent trace : ∀ d,
  db_consistent d → db_consistent (run URL_parse cfg d trace).1.
Proof.
  induction trace as [|[e r] trace IH]; intros d Hd; [done|].
  rewrite run_cons. cbn [fst]. by apply IH, handle_consistent.
Qed.

End Invariants.

(** ** Runs from the empty database *)

(** X4.  In every database the server reaches from the empty one, the
    ledger only holds visits of stored codes (a code without a row has no
    visits), and the rowids of the ledger are 1, 2, 3, ... in order. *)
Theorem ledger_names_stored_codes_in_rowid_order
    (URL_parse : string → option URL) (cfg : config) (trace : list (env * request)) :
  (∀ v, v ∈ visits (run URL_parse cfg empty_db trace).1 →
        is_Some (urls (run URL_parse cfg empty_db trace).1 !! Visits.code v)) ∧
  (∀ k, urls (run URL_parse cfg empty_db trace).1 !! k = None →
        visits_of k (run URL_parse cfg empty_db trace).1 = []) ∧
  (∀ i v, visits (run URL_parse cfg empty_db trace).1 !! i = Some v →
          Visits.id v = Z.of_nat i + 1).
Proof.
  destruct (run_consistent URL_parse cfg trace empty_db empty_db_consistent)
    as [_ _ _ Hnames Hids].
  split; [done|]. split; [|done]. intros k. by apply visits_of_unstored.
Qed.

(** X5.  In every database the server reaches from the empty one, a row
    is stored under its own code, its click counter is not negative, and
    it has a last-access time exactly when its counter is not zero. *)
Theorem rows_accessed_iff_counted
    (URL_parse : string → option URL) (cfg : config) (trace : list (env * request))
    (k : string) (row : Urls.row) :
  urls (run URL_parse cfg empty_db trace).1 !! k = Some row →
  Urls.code row = k ∧ 0 ≤ Urls.clicks row ∧
  (Urls.last_accessed row = None ↔ Urls.clicks row = 0).
Proof.
  destruct (run_consistent URL_parse cfg trace empty_db empty_db_consistent)
    as [Hcode Hcover Hacc _ _].
  intros Hrow. split; [by apply Hcode|]. split; [|by apply (Hacc k)].
  specialize (Hcover k row Hrow). lia.
Qed.

Lemma rows_accessed_iff_counted_witness :
  ∃ row, urls (example_db_after example_trace) !! "mine" = Some row ∧
         Urls.clicks row = 4 ∧ Urls.last_accessed row = Some 5.
Proof.
  eexists. split; [by vm_compute|].
  destruct (rows_accessed_iff_counted example_URL_parse default_config example_trace "mine"
              (visited (example_env 5000) (visited (example_env 4000)
                (visited (example_env 3000) (visited (example_env 2000)
                   (new_row (example_env 1000) "mine" "https://example.com/page" 301000))))))
    as (_ & _ & _); [by vm_compute|]. by vm_compute.
Defined.

(** X6.  Whatever happened before, storage failures included, statistics
    served in a run from the empty database are consistent: the number of
    unique visitors is at most the number of detailed clicks, which is at
    most the total click count. *)
Theorem stats_counts_are_ordered
    (URL_parse : string → option URL) (cfg : config) (trace : list (env * request))
    (e : env) (c : string) (status : Z) (l : string) (s : stats) :
  (handle URL_parse cfg (run URL_parse cfg empty_db trace).1 e (GetShorturlsCode c)).2 =
    Json status l (StatsBody s) →
  uniqueVisitors s ≤ Z.of_nat (length (detailedClicks s)) ∧
  Z.of_nat (length (detailedClicks s)) ≤ totalClicks s.
Proof.
  destruct (run_consistent URL_parse cfg trace empty_db empty_db_consistent)
    as [_ Hcover _ _ _].
  rewrite get_shorturls_code_eq. cbv zeta.
  destruct (urls _ !! normalizeCode (Some c)) as [row|] eqn:Hrow; [|done].
  cbn [snd]. intros [= _ _ <-]. cbn [uniqueVisitors detailedClicks totalClicks].
  rewrite length_fmap. split; [|by apply Hcover].
  pose proof (distinct_ips_le (click_of <$> visits_of (normalizeCode (Some c))
                (run URL_parse cfg empty_db trace).1)) as Hle.
  unfold distinct_ips in Hle. rewrite omap_ip_click_of, length_fmap in Hle. lia.
Qed.

Lemma stats_counts_are_ordered_witness :
  ∃ s, (example_handle (example_db_after example_trace) (example_env 6000)
          (GetShorturlsCode "mine")).2 = Json 200 "log-1" (StatsBody s) ∧
       uniqueVisitors s ≤ Z.of_nat (length (detailedClicks s)) ∧
       Z.of_nat (length (detailedClicks s)) ≤ totalClicks s.
Proof.
  eexists. split; [by vm_compute|].
  apply (stats_counts_are_ordered example_URL_parse default_config example_trace
           (example_env 6000) "mine" 200 "log-1").
  by vm_compute.
Defined.

Lemma handle_counts (URL_parse : string → option URL) (cfg : config) d e r :
  size (urls (handle URL_parse cfg d e r).1) =
    (size (urls d) + if is_created (handle URL_parse cfg d e r).2 then 1 else 0)%nat ∧
  length (visits (handle URL_parse cfg d e r).1) =
    (length (visits d) + if is_redirect (handle URL_parse cfg d e r).2 then 1 else 0)%nat.
Proof.
  assert (∀ f k (m : gmap string Urls.row), size (alter f k m) = size m) as Halter.
  { intros f k m. by rewrite <- !(size_dom (D := gset string)), dom_alter_L. }
  destruct (handle_effect URL_parse cfg d e r)
    as [(-> & -> & ->) | [(body & u & exp & _ & _ & _ & _ & Hfree & ->) |
        [(c & ip & ua & ref & row & msg & _ & Hrow & ->) |
         (c & ip & ua & ref & row & _ & Hrow & _ & ->)]]]; cbn.
  - lia.
  - rewrite map_size_insert_None by done. lia.
  - rewrite Halter. lia.
  - rewrite Halter, length_app. cbn. lia.
Qed.

(** X7.  In a run from the empty database the table [urls] holds one row
    per request answered 201, and the ledger one visit per request
    answered with a redirect: no other request adds a row or a visit, and
    nothing is ever removed. *)
Theorem tables_count_created_and_redirected
    (URL_parse : string → option URL) (cfg : config) (trace : list (env * request)) :
  size (urls (run URL_parse cfg empty_db trace).1) =
    length (filter (λ resp, is_created resp = true) (run URL_parse cfg empty_db trace).2) ∧
  length (visits (run URL_parse cfg empty_db trace).1) =
    length (filter (λ resp, is_redirect resp = true) (run URL_parse cfg empty_db trace).2).
Proof.
  assert (∀ d,
    size (urls (run URL_parse cfg d trace).1) =
      (size (urls d) +
       length (filter (λ resp, is_created resp = true) (run URL_parse cfg d trace).2))%nat ∧
    length (visits (run URL_parse cfg d trace).1) =
      (length (visits d) +
       length (filter (λ resp, is_redirect resp = true) (run URL_parse cfg d trace).2))%nat)
    as Hgen.
  { induction trace as [|[e r] trace IH]; intros d; [cbn; lia|].
    rewrite run_cons. cbn [fst snd]. rewrite !filter_cons.
    destruct (IH (handle URL_parse cfg d e r).1) as [-> ->].
    destruct (handle_counts URL_parse cfg d e r) as [-> ->].
    destruct (is_created (handle URL_parse cfg d e r).2),
             (is_redirect (handle URL_parse cfg d e r).2);
      repeat case_decide; try done; cbn [length]; lia. }
  destruct (Hgen empty_db) as [-> ->]. cbn [empty_db urls visits length].
  by rewrite map_size_empty.
Qed.

(** ** The expiry of a new link *)

Lemma of_number_Qeq (q1 q2 : Q) :
  (q1 == q2)%Q → JsDate.of_number (JsNumber.Fin q1) = JsDate.of_number (JsNumber.Fin q2).
Proof.
  intros Hq. unfold JsDate.of_number, JsNumber.trunc.
  by rewrite (Qleb_comp _ _ (Qabs_wd _ _ Hq) _ _ (Qeq_refl _)),
    (Qleb_comp _ _ (Qeq_refl 0) _ _ Hq), (Qfloor_comp _ _ Hq), (Qceiling_comp _ _ Hq).
Qed.

Lemma computeExpiry_Qeq (e : env) (q : Q) (z : Z) :
  (q == inject_Z z)%Q →
  computeExpiry e (JsNumber.Fin q) = computeExpiry e (JsNumber.of_Z z).
Proof.
  intros Hq. unfold computeExpiry, JsNumber.of_Z. cbn [JsNumber.mul JsNumber.add].
  f_equal. apply of_number_Qeq. by rewrite Hq.
Qed.

Lemma computeExpiry_out_of_range (e : env) (minutes : Z) :
  JsDate.max_time < Z.abs (now e + minutes * 60000) →
  computeExpiry e (JsNumber.of_Z minutes) = Js.Throw (Js.RangeError "Invalid time value").
Proof.
  intros Hrange. unfold computeExpiry, JsNumber.of_Z. cbn [JsNumber.mul JsNumber.add].
  set (q := (inject_Z (now e) + inject_Z minutes * inject_Z 60 * inject_Z 1000)%Q).
  assert (q == inject_Z (now e + minutes * 60000))%Q as Hq.
  { unfold q. rewrite <- !inject_Z_mult, <- inject_Z_plus.
    apply inject_Z_injective. lia. }
  unfold JsDate.of_number.
  assert (Qle_bool (Qabs q) (inject_Z JsDate.max_time) = false) as ->; [|done].
  apply not_true_is_false. rewrite Qle_bool_iff, Hq. unfold inject_Z.
  rewrite <- Zabs_Qabs. unfold Qle. simpl. lia.
Qed.

Lemma validityMinutes_positive (cfg : config) (q : Q) (z : Z) :
  (q == inject_Z z)%Q → 0 < z →
  validityMinutes cfg (Js.Num (JsNumber.Fin q)) = JsNumber.Fin q.
Proof.
  intros Hq Hz. unfold validityMinutes, Js.Number_isInteger, JsNumber.isInteger,
    JsNumber.gt, JsNumber.of_Z.
  assert (Qeq_bool q (inject_Z (Qfloor q)) = true) as ->.
  { apply Qeq_bool_iff. by rewrite (Qfloor_comp _ _ Hq), Qfloor_Z. }
  assert (Qle_bool q (inject_Z 0) = false) as ->; [|done].
  apply not_true_is_false. rewrite Qle_bool_iff, Hq, <- Zle_Qle. lia.
Qed.

(** The minutes a create request is valid for: the [validity] of the
    request when it is a positive integer, the default otherwise. *)
Lemma validityMinutes_cases (cfg : config) (v : Js.value) :
  (∃ q z, (q == inject_Z z)%Q ∧ 0 < z ∧ validityMinutes cfg v = JsNumber.Fin q) ∨
  validityMinutes cfg v = DEFAULT_VALIDITY cfg.
Proof.
  destruct v as [| |b|x|s|]; try by right.
  destruct x as [q| | |]; try by right.
  unfold validityMinutes, Js.Number_isInteger, JsNumber.isInteger, JsNumber.gt, JsNumber.of_Z.
  destruct (Qeq_bool q (inject_Z (Qfloor q))) eqn:Hint; [|by right].
  destruct (Qle_bool q (inject_Z 0)) eqn:Hle; [by right|].
  left. exists q, (Qfloor q). apply Qeq_bool_iff in Hint. split; [done|]. split; [|done].
  assert (¬ (q <= inject_Z 0)%Q) as Hpos by (rewrite <- Qle_bool_iff; congruence).
  apply Qnot_le_lt in Hpos. rewrite Hint in Hpos. by rewrite Zlt_Qlt.
Qed.

Lemma computeExpiry_whole_minutes (e : env) (z exp : Z) :
  computeExpiry e (JsNumber.of_Z z) = Js.Ok exp → exp = now e + z * 60000.
Proof.
  intros Hexp.
  destruct (Z_le_gt_dec (Z.abs (now e + z * 60000)) JsDate.max_time) as [Hin|Hout].
  - rewrite (computeExpiry_integer_minutes e z Hin) in Hexp. by injection Hexp.
  - rewrite (computeExpiry_out_of_range e z) in Hexp by lia. done.
Qed.

Lemma new_link_expires_later (cfg : config) (e : env) (v : Js.value) (n exp : Z) :
  DEFAULT_VALIDITY cfg = JsNumber.of_Z n → 0 < n →
  computeExpiry e (validityMinutes cfg v) = Js.Ok exp →
  ∃ m, 0 < m ∧ exp = now e + m * 60000.
Proof.
  intros Hdefault Hn Hexp.
  destruct (validityMinutes_cases cfg v) as [(q & z & Hq & Hz & Hv) | Hv];
    rewrite Hv in Hexp.
  - rewrite (computeExpiry_Qeq e q z Hq) in Hexp.
    exists z. split; [done|]. by apply computeExpiry_whole_minutes.
  - rewrite Hdefault in Hexp. exists n. split; [done|]. by apply computeExpiry_whole_minutes.
Qed.

(** X8.  Under a configuration whose default validity is a positive whole
    number of minutes, every row in a database reached from the empty one
    expires strictly after it was created. *)
Theorem rows_expire_after_creation
    (URL_parse : string → option URL) (cfg : config) (n : Z)
    (trace : list (env * request)) (k : string) (row : Urls.row) :
  DEFAULT_VALIDITY cfg = JsNumber.of_Z n → 0 < n →
  urls (run URL_parse cfg empty_db trace).1 !! k = Some row →
  Urls.created_at row * 1000 < Urls.expiry_at row.
Proof.
  intros Hdefault Hn.
  assert (∀ d, (∀ k row, urls d !! k = Some row →
                  Urls.created_at row * 1000 < Urls.expiry_at row) →
               ∀ k row, urls (run URL_parse cfg d trace).1 !! k = Some row →
                  Urls.created_at row * 1000 < Urls.expiry_at row) as Hgen.
  { induction trace as [|[e r] trace IH]; intros d Hd; [done|].
    rewrite run_cons. cbn [fst]. apply IH. clear IH. intros k' row'.
    destruct (handle_effect URL_parse cfg d e r)
      as [(-> & _) | [(body & u & exp & _ & _ & _ & Hexp & Hfree & ->) |
          [(c & ip & ua & ref & row0 & msg & _ & Hrow & ->) |
           (c & ip & ua & ref & row0 & _ & Hrow & _ & ->)]]]; cbn [fst urls].
    - apply Hd.
    - rewrite lookup_insert. case_decide; [|apply Hd]. intros [= <-]. cbn.
      destruct (new_link_expires_later cfg e _ n exp Hdefault Hn Hexp) as (m & Hm & ->).
      unfold datetime_now. pose proof (Z.mul_div_le (now e) 1000). lia.
    - rewrite lookup_alter. case_decide; [|apply Hd].
      destruct (urls d !! _) as [r0|] eqn:Hr0; [|done]. intros [= <-]. cbn. by eapply Hd.
    - rewrite lookup_alter. case_decide; [|apply Hd].
      destruct (urls d !! _) as [r0|] eqn:Hr0; [|done]. intros [= <-]. cbn. by eapply Hd. }
  apply Hgen. intros k' row'. cbn. by rewrite lookup_empty.
Qed.

Lemma rows_expire_after_creation_witness :
  ∃ row, urls (example_db_after example_trace) !! "mine" = Some row ∧
         Urls.created_at row * 1000 < Urls.expiry_at row.
Proof.
  eexists. split; [by vm_compute|].
  apply (rows_expire_after_creation example_URL_parse default_config 30 example_trace "mine");
    [reflexivity | reflexivity | by vm_compute].
Defined.

(** ** Create requests *)

(** X9.  A create request is all or nothing.  Either it is answered 201,
    and then exactly one row was inserted, under a code that was free, with
    the URL of the request, a zero counter and no last-access time, every
    other row and the ledger being untouched; or it is answered otherwise
    and the database is left exactly as it was. *)
Theorem create_is_all_or_nothing
    (URL_parse : string → option URL) (cfg : config) (d : db) (e : env)
    (body : create_body) :
  (is_created (handle URL_parse cfg d e (PostShorturls body)).2 = false ∧
   (handle URL_parse cfg d e (PostShorturls body)).1 = d) ∨
  (∃ u exp,
     url body = Some u ∧
     (handle URL_parse cfg d e (PostShorturls body)).2 =
       Json 201 (logID e) (CreatedBody (BASE_URL cfg +:+ "/" +:+ chosen_code e body) exp) ∧
     urls d !! chosen_code e body = None ∧
     urls (handle URL_parse cfg d e (PostShorturls body)).1 !! chosen_code e body =
       Some {| Urls.code := chosen_code e body; Urls.long_url := u;
               Urls.created_at := datetime_now e; Urls.expiry_at := exp;
               Urls.last_accessed := None; Urls.clicks := 0 |} ∧
     (∀ k, k ≠ chosen_code e body →
        urls (handle URL_parse cfg d e (PostShorturls body)).1 !! k = urls d !! k) ∧
     visits (handle URL_parse cfg d e (PostShorturls body)).1 = visits d).
Proof.
  destruct (handle_effect URL_parse cfg d e (PostShorturls body))
    as [(Hsame & Hno & _) | [(body' & u & exp & [= <-] & (Hu & _) & _ & _ & Hfree & Heq) |
        [(c & ? & ? & ? & ? & ? & [=] & _) | (c & ? & ? & ? & ? & [=] & _)]]].
  - by left.
  - right. exists u, exp. rewrite Heq. cbn [fst snd urls visits].
    split; [done|]. split; [done|]. split; [done|].
    split; [by rewrite lookup_insert_eq|]. split; [|done].
    intros k Hk. by rewrite lookup_insert_ne.
Qed.

(** X10.  A create request whose [url] is missing, empty or not accepted
    by [isValidHttpUrl] is answered 400 "Invalid or missing URL." and
    writes nothing, whatever its [validity] and [shortcode] are: the URL
    is checked first. *)
Theorem invalid_url_is_rejected_first
    (URL_parse : string → option URL) (cfg : config) (d : db) (e : env)
    (body : create_body) :
  (∀ u, url body = Some u → JsString.truthy u = true →
        isValidHttpUrl URL_parse u = Js.Ok false) →
  handle URL_parse cfg d e (PostShorturls body) =
    (d, Json 400 (logID e) (ErrorBody "Invalid or missing URL.")).
Proof.
  intros Hbad. unfold handle, route, post_shorturls, bindM, liftM, retM.
  destruct (url body) as [u|]; [|done].
  destruct (JsString.truthy u) eqn:Hu; [|done].
  by rewrite (Hbad u eq_refl Hu).
Qed.

Lemma invalid_url_is_rejected_first_witness :
  example_handle example_db (example_env 1000)
    (PostShorturls (CreateBody (Some "ftp://example.com/file")
                      (Js.Num (JsNumber.of_Z 1000000000000000000)) (Some "ab"))) =
    (example_db, Json 400 "log-1" (ErrorBody "Invalid or missing URL.")) ∧
  example_handle example_db (example_env 1000)
    (PostShorturls (CreateBody (Some "") Js.Undefined None)) =
    (example_db, Json 400 "log-1" (ErrorBody "Invalid or missing URL.")) ∧
  example_handle example_db (example_env 1000)
    (PostShorturls (CreateBody None Js.Undefined None)) =
    (example_db, Json 400 "log-1" (ErrorBody "Invalid or missing URL.")).
Proof.
  unfold example_handle.
  split; [|split];
    apply (invalid_url_is_rejected_first example_URL_parse default_config example_db
             (example_env 1000));
    intros u [= <-] Hu; by vm_compute in Hu |- *.
Defined.

(** X11.  A create request with an accepted URL and a computable expiry
    whose shortcode is not blank and, once trimmed and lowercased, has
    fewer than 4 or more than 32 characters or a character other than a
    letter, a digit, [-] or [_], is answered 400 and writes nothing; the
    code generator is not consulted. *)
Theorem malformed_shortcode_is_rejected
    (URL_parse : string → option URL) (cfg : config) (d : db) (e : env)
    (body : create_body) (u : string) (exp : Z) :
  url_accepted URL_parse body u →
  computeExpiry e (validityMinutes cfg (validity body)) = Js.Ok exp →
  normalizeCode (shortcode body) ≠ EmptyString →
  ¬ ((4 ≤ String.length (normalizeCode (shortcode body)) ≤ 32)%nat ∧
     JsString.all_chars code_char (normalizeCode (shortcode body)) = true) →
  handle URL_parse cfg d e (PostShorturls body) =
    (d, Json 400 (logID e) (ErrorBody "shortcode must be 4-32 chars, alnum/-,_ only.")).
Proof.
  intros (Hu & Htruthy & Hvalid) Hexp Hnonempty Hbad.
  rewrite <- isValidCodeSyntax_iff in Hbad. apply not_true_is_false in Hbad.
  unfold isValidCodeSyntax in Hbad.
  unfold handle, route, post_shorturls, bindM, liftM, retM.
  rewrite Hu, Htruthy, Hvalid. cbn [negb]. rewrite Hexp, Hbad.
  by destruct (normalizeCode (shortcode body)).
Qed.

Lemma malformed_shortcode_is_rejected_witness :
  example_handle example_db (example_env 1000)
    (example_create Js.Undefined (Some " AB ")) =
    (example_db, Json 400 "log-1"
                   (ErrorBody "shortcode must be 4-32 chars, alnum/-,_ only.")) ∧
  example_handle example_db (example_env 1000)
    (example_create Js.Undefined (Some "my code")) =
    (example_db, Json 400 "log-1"
                   (ErrorBody "shortcode must be 4-32 chars, alnum/-,_ only.")).
Proof.
  unfold example_handle, example_create.
  split.
  - apply (malformed_shortcode_is_rejected example_URL_parse default_config example_db
             (example_env 1000) _ "https://example.com/page" 1801000);
      [by vm_compute | by vm_compute | by vm_compute |].
    intros [[Hlen _] _]. vm_compute in Hlen. lia.
  - apply (malformed_shortcode_is_rejected example_URL_parse default_config example_db
             (example_env 1000) _ "https://example.com/page" 1801000);
      [by vm_compute | by vm_compute | by vm_compute |].
    intros [_ Hchars]. by vm_compute in Hchars.
Defined.

(** X12.  For a [validity] that is a positive integer number of minutes
    and an expiry within the range of dates, a create request that passes
    the checks and finds its code free is answered 201 with the expiry
    exactly that many minutes after the request. *)
Theorem positive_validity_sets_expiry
    (URL_parse : string → option URL) (cfg : config) (d : db) (e : env)
    (body : create_body) (u : string) (q : Q) (z : Z) :
  validity body = Js.Num (JsNumber.Fin q) → (q == inject_Z z)%Q → 0 < z →
  Z.abs (now e + z * 60000) ≤ JsDate.max_time →
  url_accepted URL_parse body u →
  code_accepted body →
  fault e InsertUrl = None →
  urls d !! chosen_code e body = None →
  handle URL_parse cfg d e (PostShorturls body) =
    ({| urls := <[chosen_code e body :=
                   new_row e (chosen_code e body) u (now e + z * 60000)]> (urls d);
        visits := visits d |},
     Json 201 (logID e)
       (CreatedBody (BASE_URL cfg +:+ "/" +:+ chosen_code e body) (now e + z * 60000))).
Proof.
  intros Hv Hq Hz Hrange Hurl Hcode Hfault Hfree.
  rewrite (post_shorturls_insert_eq URL_parse cfg d e body u (now e + z * 60000));
    [|done| |done].
  - cbv zeta. by rewrite Hfault, Hfree.
  - rewrite Hv, (validityMinutes_positive cfg q z Hq Hz), (computeExpiry_Qeq e q z Hq).
    by apply computeExpiry_integer_minutes.
Qed.

Lemma positive_validity_sets_expiry_witness :
  (example_handle empty_db (example_env 1000)
     (example_create (Js.Num (JsNumber.of_Z 5)) None)).2 =
  Json 201 "log-1" (CreatedBody "http://localhost:8080/v1stgxr" 301000).
Proof.
  unfold example_handle, example_create.
  rewrite (positive_validity_sets_expiry example_URL_parse default_config empty_db
             (example_env 1000) _ "https://example.com/page" (inject_Z 5) 5);
    [reflexivity | reflexivity | reflexivity | reflexivity | by vm_compute | by vm_compute |
     | reflexivity | by vm_compute].
  intros H. by vm_compute in H.
Defined.

(** X13.  For a [validity] that is a positive integer so large that the
    expiry leaves the range of dates, a create request with an accepted
    URL throws a RangeError out of the handler, whatever its shortcode,
    and writes nothing. *)
Theorem oversized_validity_throws
    (URL_parse : string → option URL) (cfg : config) (d : db) (e : env)
    (body : create_body) (u : string) (q : Q) (z : Z) :
  validity body = Js.Num (JsNumber.Fin q) → (q == inject_Z z)%Q → 0 < z →
  JsDate.max_time < Z.abs (now e + z * 60000) →
  url_accepted URL_parse body u →
  handle URL_parse cfg d e (PostShorturls body) =
    (d, Uncaught (Js.RangeError "Invalid time value")).
Proof.
  intros Hv Hq Hz Hrange (Hu & Htruthy & Hvalid).
  unfold handle, route, post_shorturls, bindM, liftM, retM.
  rewrite Hu, Htruthy, Hvalid. cbn [negb].
  by rewrite Hv, (validityMinutes_positive cfg q z Hq Hz), (computeExpiry_Qeq e q z Hq),
    (computeExpiry_out_of_range e z Hrange).
Qed.

Lemma oversized_validity_throws_witness :
  example_handle example_db (example_env 1000)
    (example_create (Js.Num (JsNumber.of_Z 144000000000)) (Some "ab")) =
  (example_db, Uncaught (Js.RangeError "Invalid time value")).
Proof.
  unfold example_handle, example_create.
  apply (oversized_validity_throws example_URL_parse default_config example_db
           (example_env 1000) _ "https://example.com/page" (inject_Z 144000000000)
           144000000000);
    [reflexivity | reflexivity | reflexivity | by vm_compute | by vm_compute].
Defined.

(** ** Stored codes and rows *)

Lemma length_toLowerCase (s : string) :
  String.length (JsString.toLowerCase s) = String.length s.
Proof. induction s as [|c s IH]; cbn; [done|]. by rewrite IH. Qed.

Lemma chosen_code_valid (e : env) (body : create_body) :
  code_accepted body → is_nanoid (nanoid e) →
  isValidCodeSyntax (chosen_code e body) = true.
Proof.
  intros Hcode [Hlen Hchars]. unfold chosen_code. cbv zeta.
  destruct (JsString.truthy (normalizeCode (shortcode body))) eqn:Hnc; [by apply Hcode|].
  apply isValidCodeSyntax_iff. rewrite length_toLowerCase, Hlen.
  split; [lia|]. by apply toLowerCase_code_chars.
Qed.

(** X14.  When every result of [nanoid(7)] is seven characters of its
    alphabet, every code stored in a database reached from the empty one
    passes the shortcode pattern and is its own normal form; so the row can
    be looked up by [GET /:code] and by [GET /shorturls/:code] under the
    code it is stored under. *)
Theorem stored_codes_are_well_formed
    (URL_parse : string → option URL) (cfg : config) (trace : list (env * request))
    (k : string) (row : Urls.row) :
  Forall (λ er, is_nanoid (nanoid er.1)) trace →
  urls (run URL_parse cfg empty_db trace).1 !! k = Some row →
  isValidCodeSyntax k = true ∧ normalizeCode (Some k) = k.
Proof.
  intros Hgen.
  assert (∀ d, (∀ k, is_Some (urls d !! k) →
                  isValidCodeSyntax k = true ∧ normalizeCode (Some k) = k) →
               ∀ k, is_Some (urls (run URL_parse cfg d trace).1 !! k) →
                  isValidCodeSyntax k = true ∧ normalizeCode (Some k) = k) as Hrun.
  { induction trace as [|[e r] trace IH]; intros d Hd; [done|].
    apply Forall_cons in Hgen as [He Hgen]. cbn [fst] in He.
    rewrite run_cons. cbn [fst]. apply IH; [done|]. clear IH. intros k'.
    destruct (handle_effect URL_parse cfg d e r)
      as [(-> & _) | [(body & u & exp & _ & _ & Hcode & _ & Hfree & ->) |
          [(c & ip & ua & ref & row0 & msg & _ & Hrow & ->) |
           (c & ip & ua & ref & row0 & _ & Hrow & _ & ->)]]]; cbn [fst urls].
    - apply Hd.
    - rewrite lookup_insert. case_decide as Hk; [|apply Hd]. subst k'. intros _.
      split; [by apply chosen_code_valid|]. by apply normalizeCode_chosen.
    - rewrite lookup_alter. case_decide; [|apply Hd]. subst k'.
      intros _. apply Hd. by rewrite Hrow.
    - rewrite lookup_alter. case_decide; [|apply Hd]. subst k'.
      intros _. apply Hd. by rewrite Hrow. }
  intros Hrow. apply (Hrun empty_db); [|by rewrite Hrow].
  intros k' [row' Hrow']. cbn in Hrow'. by rewrite lookup_empty in Hrow'.
Qed.

Lemma stored_codes_are_well_formed_witness :
  isValidCodeSyntax "mine" = true ∧ normalizeCode (Some "mine") = "mine".
Proof.
  apply (stored_codes_are_well_formed example_URL_parse default_config example_trace "mine"
           (visited (example_env 5000) (visited (example_env 4000)
             (visited (example_env 3000) (visited (example_env 2000)
                (new_row (example_env 1000) "mine" "https://example.com/page" 301000)))))).
  - unfold example_trace. repeat constructor; by vm_compute.
  - by vm_compute.
Defined.

(** X15.  Rows are permanent.  Whatever requests are served, a stored row
    stays stored under its code with the same long URL, creation time and
    expiry, and its click counter never decreases. *)
Theorem stored_rows_are_permanent
    (URL_parse : string → option URL) (cfg : config) (d : db)
    (trace : list (env * request)) (code : string) (row : Urls.row) :
  urls d !! code = Some row →
  ∃ row', urls (run URL_parse cfg d trace).1 !! code = Some row' ∧
    Urls.long_url row' = Urls.long_url row ∧
    Urls.created_at row' = Urls.created_at row ∧
    Urls.expiry_at row' = Urls.expiry_at row ∧
    Urls.clicks row ≤ Urls.clicks row'.
Proof.
  intros Hrow.
  destruct (run_keeps_row URL_parse cfg trace d code row Hrow)
    as (row' & Hrow' & Hlong & Hexp & Hcreated & Hclicks).
  by exists row'.
Qed.

Lemma stored_rows_are_permanent_witness :
  ∃ row', urls (run example_URL_parse default_config example_db
                  (drop 1 example_trace)).1 !! "mine" = Some row' ∧
    Urls.long_url row' = "https://example.com/page" ∧
    Urls.created_at row' = 0 ∧
    Urls.expiry_at row' = 1800000 ∧
    0 ≤ Urls.clicks row'.
Proof.
  apply (stored_rows_are_permanent example_URL_parse default_config example_db
           (drop 1 example_trace) "mine" example_row).
  by vm_compute.
Defined.

(** ** Redirect requests *)

(** X16.  While the storage layer works, a stored link redirects exactly
    as long as the clock has not passed its expiry: at the expiry instant
    itself the redirect is still served, one millisecond later the answer
    is 410. *)
Theorem redirect_iff_not_past_expiry
    (URL_parse : string → option URL) (cfg : config) (d : db) (e : env)
    (c : string) (ip user_agent referer : option string) (row : Urls.row) :
  urls d !! normalizeCode (Some c) = Some row →
  fault e UpdateOnVisit = None →
  fault e InsertVisit = None →
  ((handle URL_parse cfg d e (GetCode c ip user_agent referer)).2 =
     Redirect (Urls.long_url row) ↔ now e ≤ Urls.expiry_at row) ∧
  ((handle URL_parse cfg d e (GetCode c ip user_agent referer)).2 =
     Json 410 (logID e) (ErrorBody "Short link expired.") ↔ Urls.expiry_at row < now e).
Proof.
  intros Hrow Hupd Hins. rewrite get_code_eq. cbv zeta. rewrite Hrow, Hupd, Hins.
  destruct (Urls.expiry_at row <? now e) eqn:Hexp; cbn [snd].
  - apply Z.ltb_lt in Hexp. split; split; try done; lia.
  - apply Z.ltb_ge in Hexp. split; split; try done; lia.
Qed.

Lemma redirect_iff_not_past_expiry_witness :
  (example_handle example_db (example_env 1800000)
     (GetCode "mine" None None None)).2 = Redirect "https://example.com/page" ∧
  (example_handle example_db (example_env 1800001)
     (GetCode "mine" None None None)).2 = Json 410 "log-1" (ErrorBody "Short link expired.").
Proof.
  unfold example_handle. split.
  - apply (redirect_iff_not_past_expiry example_URL_parse default_config example_db
             (example_env 1800000) "mine" None None None example_row);
      [by vm_compute | reflexivity | reflexivity | by vm_compute].
  - apply (redirect_iff_not_past_expiry example_URL_parse default_config example_db
             (example_env 1800001) "mine" None None None example_row);
      [by vm_compute | reflexivity | reflexivity | by vm_compute].
Defined.

(** X17.  A request answered with a redirect has recorded exactly this:
    the counter of the row of its code went up by one and its last-access
    time is the current second, the row is otherwise unchanged and so is
    every other row; one visit was appended to the ledger with the next
    rowid, the code, the current second, the address of the request and its
    User-Agent and Referer headers, an empty header being stored as NULL. *)
Theorem redirect_records_one_visit
    (URL_parse : string → option URL) (cfg : config) (d : db) (e : env)
    (c target : string) (ip user_agent referer : option string) :
  (handle URL_parse cfg d e (GetCode c ip user_agent referer)).2 = Redirect target →
  ∃ row,
    urls d !! normalizeCode (Some c) = Some row ∧
    target = Urls.long_url row ∧
    urls (handle URL_parse cfg d e (GetCode c ip user_agent referer)).1
      !! normalizeCode (Some c) =
      Some {| Urls.code := Urls.code row; Urls.long_url := Urls.long_url row;
              Urls.created_at := Urls.created_at row; Urls.expiry_at := Urls.expiry_at row;
              Urls.last_accessed := Some (now e / 1000);
              Urls.clicks := Urls.clicks row + 1 |} ∧
    (∀ k, k ≠ normalizeCode (Some c) →
       urls (handle URL_parse cfg d e (GetCode c ip user_agent referer)).1 !! k =
       urls d !! k) ∧
    visits (handle URL_parse cfg d e (GetCode c ip user_agent referer)).1 =
      visits d ++
      [ {| Visits.id := Z.of_nat (length (visits d)) + 1;
           Visits.code := normalizeCode (Some c);
           Visits.ts := now e / 1000;
           Visits.ip := ip;
           Visits.user_agent :=
             match user_agent with Some EmptyString => None | h => h end;
           Visits.referrer :=
             match referer with Some EmptyString => None | h => h end |} ].
Proof.
  rewrite get_code_eq. cbv zeta.
  destruct (urls d !! normalizeCode (Some c)) as [row|] eqn:Hrow; [|done].
  destruct (Urls.expiry_at row <? now e); [done|].
  destruct (fault e UpdateOnVisit); [done|].
  destruct (fault e InsertVisit); [done|].
  cbn [fst snd urls visits]. intros [= <-]. exists row.
  split; [done|]. split; [done|]. split; [by rewrite lookup_alter_eq, Hrow|].
  split; [intros k Hk; by rewrite lookup_alter_ne|].
  unfold new_visit, Js.or_else, datetime_now. do 3 f_equal.
  - by destruct user_agent as [[|]|].
  - by destruct referer as [[|]|].
Qed.

Lemma redirect_records_one_visit_witness :
  visits (example_handle example_db (example_env 2000)
            (GetCode "Mine " (Some "203.0.113.7") (Some "") (Some "https://a.example/"))).1 =
  [ {| Visits.id := 1; Visits.code := "mine"; Visits.ts := 2;
       Visits.ip := Some "203.0.113.7"; Visits.user_agent := None;
       Visits.referrer := Some "https://a.example/" |} ].
Proof.
  unfold example_handle.
  destruct (redirect_records_one_visit example_URL_parse default_config example_db
              (example_env 2000) "Mine " "https://example.com/page"
              (Some "203.0.113.7") (Some "") (Some "https://a.example/"))
    as (row & _ & _ & _ & _ & ->); [by vm_compute|]. by vm_compute.
Defined.

(** X18.  An expired link stays expired and stays queryable: whatever
    requests are served after a link was stored, a redirect request made
    when the clock is past the expiry of the link is answered 410, while
    its statistics are still served, with the same long URL and expiry. *)
Theorem expired_link_stays_expired
    (URL_parse : string → option URL) (cfg : config) (d : db)
    (trace : list (env * request)) (e : env) (c : string)
    (ip user_agent referer : option string) (row : Urls.row) :
  urls d !! normalizeCode (Some c) = Some row →
  Urls.expiry_at row < now e →
  (handle URL_parse cfg (run URL_parse cfg d trace).1 e
     (GetCode c ip user_agent referer)).2 =
    Json 410 (logID e) (ErrorBody "Short link expired.") ∧
  ∃ s, (handle URL_parse cfg (run URL_parse cfg d trace).1 e (GetShorturlsCode c)).2 =
         Json 200 (logID e) (StatsBody s) ∧
       longUrl s = Urls.long_url row ∧ expiryAt s = Urls.expiry_at row.
Proof.
  intros Hrow Hexp.
  destruct (run_keeps_row URL_parse cfg trace d _ row Hrow)
    as (row' & Hrow' & Hlong & Hexpiry & _).
  rewrite get_code_eq, get_shorturls_code_eq. cbv zeta. rewrite Hrow', Hexpiry.
  apply Z.ltb_lt in Hexp. rewrite Hexp. split; [done|].
  eexists. split; [reflexivity|]. cbn. by rewrite Hlong.
Qed.

Lemma expired_link_stays_expired_witness :
  (example_handle
     (run example_URL_parse default_config example_db (drop 1 example_trace)).1
     (example_env 1800001) (GetCode "mine" None None None)).2 =
  Json 410 "log-1" (ErrorBody "Short link expired.").
Proof.
  unfold example_handle.
  apply (expired_link_stays_expired example_URL_parse default_config example_db
           (drop 1 example_trace) (example_env 1800001) "mine" None None None example_row);
    by vm_compute.
Defined.

(** ** The logging middleware and the server together *)

Lemma loggingMiddleware_lines (w : world) (fs : Fs.t) :
  (loggingMiddleware w fs).2 = randomUUID w ∧
  Fs.lines (loggingMiddleware w fs).1 = Fs.lines fs ++ option_list (logged w).
Proof.
  unfold loggingMiddleware, logged, Fs.mkdirSync, Fs.appendFileSync, Fs.lines.
  split; [done|]. cbv zeta.
  destruct (fs_fault w Fs.MkdirSync); cbn; [by rewrite app_nil_r|].
  destruct (fs_fault w Fs.AppendFileSync); cbn; [by rewrite app_nil_r|]. done.
Qed.

Lemma handle_json_logID (URL_parse : string → option URL) (cfg : config)
    (d : db) (e : env) (r : request) (status : Z) (l : string) (b : payload) :
  (handle URL_parse cfg d e r).2 = Json status l b → l = logID e.
Proof.
  destruct r as [body | c ip ua ref | c].
  - unfold handle, route, post_shorturls, bindM, liftM, retM, try_catchM, insertUrl,
      run_stmt, throwM.
    repeat (case_match; simplify_eq/=); try done; by intros [= _ <- _].
  - rewrite get_code_eq. cbv zeta.
    repeat (case_match; simplify_eq/=); try done; by intros [= _ <- _].
  - rewrite get_shorturls_code_eq. cbv zeta.
    repeat (case_match; simplify_eq/=); try done; by intros [= _ <- _].
Qed.

Lemma serve_eq (URL_parse : string → option URL) (cfg : config)
    (st : Fs.t * db) (w : world) (r : request) :
  serve URL_parse cfg st w r =
  (((loggingMiddleware w st.1).1,
    (handle URL_parse cfg st.2 (env_of w (randomUUID w)) r).1),
   (handle URL_parse cfg st.2 (env_of w (randomUUID w)) r).2).
Proof.
  unfold serve. destruct (loggingMiddleware_lines w st.1) as [Hid _].
  destruct (loggingMiddleware w st.1) as [fs' id]. cbn [fst snd] in *. subst id.
  by destruct (handle URL_parse cfg st.2 (env_of w (randomUUID w)) r).
Qed.

Lemma serve_all_cons (URL_parse : string → option URL) (cfg : config)
    (st : Fs.t * db) (w : world) (r : request) (trace : list (world * request)) :
  serve_all URL_parse cfg st ((w, r) :: trace) =
  ((serve_all URL_parse cfg (serve URL_parse cfg st w r).1 trace).1,
   (serve URL_parse cfg st w r).2 ::
   (serve_all URL_parse cfg (serve URL_parse cfg st w r).1 trace).2).
Proof.
  cbn [serve_all]. destruct (serve URL_parse cfg st w r) as [st1 resp]. cbn [fst snd].
  by destruct (serve_all URL_parse cfg st1 trace).
Qed.

(** X19.  The log file is append-only.  A run of requests through the
    middleware adds to it, in the order of the requests, one line for each
    request whose [mkdirSync] and [appendFileSync] calls both succeed, with
    the [logID] of that request; a request whose logging fails adds
    nothing, and no earlier line is changed or removed. *)
Theorem log_gains_a_line_per_logged_request
    (URL_parse : string → option URL) (cfg : config)
    (trace : list (world * request)) (st : Fs.t * db) :
  Fs.lines (serve_all URL_parse cfg st trace).1.1 =
  Fs.lines st.1 ++ omap (λ wr, logged wr.1) trace.
Proof.
  revert st. induction trace as [|[w r] trace IH]; intros st.
  - cbn. by rewrite app_nil_r.
  - rewrite serve_all_cons. cbn [fst snd]. rewrite IH, serve_eq. cbn [fst snd].
    destruct (loggingMiddleware_lines w st.1) as [_ ->].
    rewrite <- app_assoc. f_equal. cbn. by destruct (logged w).
Qed.

(** X20.  Logging never changes what the server does.  Whatever the file
    system holds and whichever of its calls fail, every request reaches
    its handler with the identifier the middleware generated for it: the
    responses and the final database of a run through the middleware are
    those of the handlers run on their own. *)
Theorem logging_never_changes_the_answers
    (URL_parse : string → option URL) (cfg : config)
    (trace : list (world * request)) (st : Fs.t * db) :
  (serve_all URL_parse cfg st trace).1.2 =
    (run URL_parse cfg st.2
       ((λ wr, (env_of wr.1 (randomUUID wr.1), wr.2)) <$> trace)).1 ∧
  (serve_all URL_parse cfg st trace).2 =
    (run URL_parse cfg st.2
       ((λ wr, (env_of wr.1 (randomUUID wr.1), wr.2)) <$> trace)).2.
Proof.
  revert st. induction trace as [|[w r] trace IH]; intros st; [done|].
  rewrite serve_all_cons, fmap_cons. cbn [fst snd]. rewrite run_cons. cbn [fst snd].
  destruct (IH (serve URL_parse cfg st w r).1) as [-> ->].
  rewrite serve_eq. cbn [fst snd]. done.
Qed.

(** X21.  Every JSON answer carries the identifier of its request: the
    [logID] in the body is the one the middleware generated, and, when the
    logging succeeded, the one in the line the request added to the log. *)
Theorem json_answer_carries_logged_id
    (URL_parse : string → option URL) (cfg : config)
    (st : Fs.t * db) (w : world) (r : request) (status : Z) (l : string) (b : payload) :
  (serve URL_parse cfg st w r).2 = Json status l b →
  l = randomUUID w ∧
  (∀ line, logged w = Some line →
     log_logID line = l ∧
     Fs.lines (serve URL_parse cfg st w r).1.1 = Fs.lines st.1 ++ [line]).
Proof.
  rewrite serve_eq. cbn [fst snd]. intros Hresp.
  apply handle_json_logID in Hresp. cbn in Hresp. split; [done|].
  intros line Hline. destruct (loggingMiddleware_lines w st.1) as [_ ->].
  rewrite Hline. split; [|done].
  unfold logged in Hline. repeat case_match; simplify_eq. done.
Qed.

Lemma json_answer_carries_logged_id_witness :
  (serve example_URL_parse default_config
     ({| Fs.data_dir := false; Fs.logs_txt := None |}, example_db)
     (example_world "7d3e" 1000) (GetShorturlsCode "other")).2 =
    Json 404 "7d3e" (ErrorBody "Shortcode not found.") ∧
  Fs.lines (serve example_URL_parse default_config
              ({| Fs.data_dir := false; Fs.logs_txt := None |}, example_db)
              (example_world "7d3e" 1000) (GetShorturlsCode "other")).1.1 =
    [ {| log_logID := "7d3e"; log_message := "log created successfully" |} ].
Proof.
  split; [by vm_compute|].
  destruct (json_answer_carries_logged_id example_URL_parse default_config
              ({| Fs.data_dir := false; Fs.logs_txt := None |}, example_db)
              (example_world "7d3e" 1000) (GetShorturlsCode "other")
              404 "7d3e" (ErrorBody "Shortcode not found.")) as [_ Hlog];
    [by vm_compute|].
  destruct (Hlog {| log_logID := "7d3e"; log_message := "log created successfully" |})
    as [_ ->]; [by vm_compute|]. done.
Defined.

(** ** Exceptions that leave the create handler *)

Lemma computeExpiry_throws_range_error (e : env) (minutes : JsNumber.t) (err : Js.exn) :
  computeExpiry e minutes = Js.Throw err → err = Js.RangeError "Invalid time value".
Proof.
  unfold computeExpiry, JsDate.toISOString.
  destruct (JsDate.of_number _); [done|]. by intros [= <-].
Qed.

(** X22.  For a create request whose [url] and [shortcode] are strings
    or missing, the handler catches every failure of the insertion: the
    only exception that can leave it is the RangeError of an expiry outside
    the range of dates, raised after the URL was accepted and before
    anything is written.  (A [shortcode] that is a JSON object can make
    [String(...)] in [normalizeCode] throw; such bodies are not values of
    [create_body].) *)
Theorem create_throws_only_range_error
    (URL_parse : string → option URL) (cfg : config) (d : db) (e : env)
    (body : create_body) (err : Js.exn) :
  (handle URL_parse cfg d e (PostShorturls body)).2 = Uncaught err →
  err = Js.RangeError "Invalid time value" ∧
  computeExpiry e (validityMinutes cfg (validity body)) = Js.Throw err ∧
  (∃ u, url_accepted URL_parse body u) ∧
  (handle URL_parse cfg d e (PostShorturls body)).1 = d.
Proof.
  destruct (post_shorturls_cases URL_parse cfg d e body)
    as [[Hsame _] | (u & exp & _ & _ & _ & _ & _ & ->)]; [|done].
  rewrite Hsame. clear Hsame.
  unfold handle, route, post_shorturls, bindM, liftM, retM, try_catchM, insertUrl,
    run_stmt, throwM, url_accepted.
  destruct (url body) as [u|]; [|done].
  destruct (JsString.truthy u) eqn:Htruthy; [|done].
  destruct (isValidHttpUrl URL_parse u) as [[|]|err'] eqn:Hvalid; cbn [negb].
  - destruct (computeExpiry e (validityMinutes cfg (validity body))) as [exp|err'] eqn:Hexp.
    + repeat (case_match; simplify_eq/=); done.
    + cbn [snd]. intros [= <-].
      split; [by eapply computeExpiry_throws_range_error|]. split; [done|].
      split; [by exists u|done].
  - done.
  - exfalso. revert Hvalid. unfold isValidHttpUrl, new_URL.
    by destruct (URL_parse u).
Qed.

Lemma create_throws_only_range_error_witness :
  computeExpiry (example_env 1000)
    (validityMinutes default_config (Js.Num (JsNumber.of_Z 144000000000))) =
    Js.Throw (Js.RangeError "Invalid time value") ∧
  (example_handle example_db (example_env 1000)
     (example_create (Js.Num (JsNumber.of_Z 144000000000)) None)).1 = example_db.
Proof.
  unfold example_handle, example_create.
  destruct (create_throws_only_range_error example_URL_parse default_config example_db
              (example_env 1000)
              (CreateBody (Some "https://example.com/page")
                 (Js.Num (JsNumber.of_Z 144000000000)) None)
              (Js.RangeError "Invalid time value")) as (_ & Hexp & _ & Hsame);
    [by vm_compute|].
  split; [exact Hexp | exact Hsame].
Defined.

(** ** Counting redirects *)

(** C7, as the code has it.  In a run from the empty database, let N be
    the number of redirects served for a code and K the number of distinct
    non-null addresses they came from.  Then K ≤ N, the code is stored as
    soon as N is positive, and the statistics of the code report
    [uniqueVisitors = K] and a [totalClicks] of at least N; [totalClicks]
    is N when no redirect request for the code ended in a storage error
    (the counter is incremented before the ledger is written, so a request
    that fails in between is counted without being served). *)
Theorem stats_report_redirects_and_distinct_ips
    (URL_parse : string → option URL) (cfg : config)
    (trace : list (env * request)) (d : db) (resps : list response)
    (c : string) (e : env) :
  run URL_parse cfg empty_db trace = (d, resps) →
  (distinct_ips (redirects (normalizeCode (Some c)) trace resps)
   ≤ length (redirects (normalizeCode (Some c)) trace resps))%nat ∧
  ((0 < length (redirects (normalizeCode (Some c)) trace resps))%nat →
   is_Some (urls d !! normalizeCode (Some c))) ∧
  (∀ row, urls d !! normalizeCode (Some c) = Some row →
     ∃ s, handle URL_parse cfg d e (GetShorturlsCode c) =
            (d, Json 200 (logID e) (StatsBody s)) ∧
          uniqueVisitors s =
            Z.of_nat (distinct_ips (redirects (normalizeCode (Some c)) trace resps)) ∧
          Z.of_nat (length (redirects (normalizeCode (Some c)) trace resps))
            ≤ totalClicks s ∧
          (no_crash (normalizeCode (Some c)) trace resps = true →
           totalClicks s =
             Z.of_nat (length (redirects (normalizeCode (Some c)) trace resps)))).
Proof.
  intros Hrun. set (code := normalizeCode (Some c)) in *.
  pose proof (run_ledger URL_parse cfg code trace empty_db) as Hledger.
  pose proof (run_counter URL_parse cfg code trace empty_db) as Hcounter.
  pose proof (run_consistent URL_parse cfg trace empty_db empty_db_consistent)
    as [_ Hcover _ Hnames _].
  rewrite Hrun in Hledger, Hcounter, Hcover, Hnames.
  cbn [fst snd] in Hledger, Hcounter, Hcover, Hnames.
  change (click_of <$> visits_of code empty_db) with (@nil click) in Hledger.
  rewrite app_nil_l in Hledger.
  rewrite <- Hledger. rewrite length_fmap.
  split; [rewrite <- (length_fmap click_of); apply distinct_ips_le|]. split.
  - intros Hpos. destruct (urls d !! code) eqn:Hrow; [done|].
    rewrite (visits_of_unstored d code Hnames Hrow) in Hpos. cbn in Hpos. lia.
  - intros row Hrow. rewrite get_shorturls_code_eq. cbv zeta. fold code.
    rewrite Hrow. eexists. split; [reflexivity|]. cbn.
    split; [unfold distinct_ips; by rewrite omap_ip_click_of|].
    split; [by apply Hcover|].
    intros Hclean. specialize (Hcounter Hclean eq_refl). unfold counter_ok in Hcounter.
    by rewrite Hrow in Hcounter.
Qed.

Lemma stats_report_redirects_and_distinct_ips_witness :
  ∃ s, example_handle (example_db_after example_trace) (example_env 6000)
         (GetShorturlsCode "mine") =
         (example_db_after example_trace, Json 200 "log-1" (StatsBody s)) ∧
       totalClicks s = 4 ∧ uniqueVisitors s = 2.
Proof.
  unfold example_handle, example_db_after.
  destruct (stats_report_redirects_and_distinct_ips example_URL_parse default_config
              example_trace
              (run example_URL_parse default_config empty_db example_trace).1
              (run example_URL_parse default_config empty_db example_trace).2
              "mine" (example_env 6000)) as (_ & _ & Hstats).
  - by destruct (run example_URL_parse default_config empty_db example_trace).
  - destruct (Hstats (visited (example_env 5000) (visited (example_env 4000)
                (visited (example_env 3000) (visited (example_env 2000)
                   (new_row (example_env 1000) "mine" "https://example.com/page" 301000))))))
      as (s & Hs & Huniq & _ & Hclicks); [by vm_compute|].
    exists s. split; [exact Hs|]. split.
    + rewrite Hclicks; by vm_compute.
    + rewrite Huniq. by vm_compute.
Defined.

(** C7, as stated, fails: the link [mine] is created; a first redirect
    request increments the counter and then fails when the ledger is
    written; a second one is served.  One redirect was served, and the
    statistics report two clicks. *)
Lemma stats_overcount_after_failed_visit :
  (run example_URL_parse default_config empty_db example_trace_failed_visit).2 =
    [ Json 201 "log-1" (CreatedBody "http://localhost:8080/mine" 301000);
      Uncaught (Js.SqliteError "disk I/O error");
      Redirect "https://example.com/page" ] ∧
  length (redirects "mine" example_trace_failed_visit
            (run example_URL_parse default_config empty_db example_trace_failed_visit).2) =
    1%nat ∧
  ∃ s, (example_handle (example_db_after example_trace_failed_visit) (example_env 4000)
          (GetShorturlsCode "mine")).2 = Json 200 "log-1" (StatsBody s) ∧
       totalClicks s = 2 ∧ uniqueVisitors s = 1.
Proof.
  split; [by vm_compute|]. split; [by vm_compute|].
  eexists. split; [by vm_compute|]. by vm_compute.
Qed.
